(** * ab_testing: sample-size estimation, Bernoulli sampling, chi-square
      significance test and power estimate of [ab_testing.ipynb]

    The notebook is Python 3 on top of SciPy and NumPy.  Python [float] and
    NumPy [float64] are both IEEE 754 binary64, modelled by Rocq's primitive
    [float]; Python [int] is [Z]; an exception is a value of [exn] carried by
    the error monad [result].  The two number kinds differ in how they fail:
    Python's own operators raise, NumPy's return [inf] or [nan].  What the
    libraries compute numerically stays a parameter: SciPy's special
    functions and the C library's [pow]. *)

From Stdlib Require Import ZArith String Bool Lia List Permutation.
From Stdlib Require Import Floats.
Import ListNotations.

Local Open Scope Z_scope.
#[local] Set Warnings "-inexact-float".

(** ** Exceptions and the error monad *)

Module Py.

(** The exception classes the notebook's code can raise. *)
Inductive exn : Type :=
| Exception (msg : string)      (* raise Exception("...") *)
| TypeError                     (* an operand of the wrong type, e.g. None *)
| ValueError                    (* math domain error *)
| ZeroDivisionError
| OverflowError.

Inductive result (A : Type) : Type :=
| Ok (a : A)
| Raise (e : exn).

Arguments Ok {A} a.
Arguments Raise {A} e.

Definition bind {A B} (m : result A) (k : A -> result B) : result B :=
  match m with
  | Ok a => k a
  | Raise e => Raise e
  end.

Definition raises {A} (m : result A) : Prop := exists e, m = Raise e.

(** The errors that reject an argument as such: the notebook's own
    [raise Exception(...)] and the TypeError of an operand that is [None]. *)
Definition is_argument_error (e : exn) : bool :=
  match e with
  | Exception _ | TypeError => true
  | _ => false
  end.

End Py.

Import Py.

Declare Scope py_scope.
Delimit Scope py_scope with py.
Notation "x <- m ;; k" := (bind m (fun x => k))
  (at level 61, m at next level, right associativity) : py_scope.
Local Open Scope py_scope.

(** ** Python and NumPy arithmetic on binary64 *)

Module PyFloat.

Local Open Scope float_scope.

(** [a / b] on two Python floats: ZeroDivisionError when [b] is [0.0] or
    [-0.0], the IEEE quotient otherwise. *)
Definition truediv (a b : float) : result float :=
  if b =? 0 then Raise ZeroDivisionError else Ok (a / b).

(** [math.sqrt]: CPython raises ValueError ("math domain error") when the
    C result is a NaN that the argument was not. *)
Definition math_sqrt (x : float) : result float :=
  let r := sqrt x in
  if is_nan r && negb (is_nan x) then Raise ValueError else Ok r.

End PyFloat.

Import PyFloat.

(** ** SciPy's distributions

    [norm.ppf], [chi2.cdf] and [chi2.sf] are methods of SciPy's
    [rv_continuous]: each settles the ends of its domain itself and hands
    the rest to a special function, [ndtri], [chdtr] or [chdtrc].  The
    special functions are SciPy's numerics and stay parameters. *)

Module Scipy.

Local Open Scope float_scope.

(** [scipy.stats.norm.ppf(q)], the inverse of the standard normal CDF. *)
Definition norm_ppf (ndtri : float -> float) (q : float) : float :=
  if (0 <? q) && (q <? 1) then ndtri q
  else if q =? 0 then neg_infinity
  else if q =? 1 then infinity
  else nan.

(** [scipy.stats.chi2.cdf(x, df)], the CDF of the (central) chi-square
    distribution with [df] degrees of freedom. *)
Definition chi2_cdf (chdtr : Z -> float -> float) (x : float) (df : Z) : float :=
  if (df <=? 0)%Z || is_nan x then nan
  else if infinity <=? x then 1
  else if 0 <? x then chdtr df x
  else 0.

(** [scipy.stats.chi2.sf(x, df)], its survival function [1 - cdf]. *)
Definition chi2_sf (chdtrc : Z -> float -> float) (x : float) (df : Z) : float :=
  if (df <=? 0)%Z || is_nan x then nan
  else if x <=? 0 then 1
  else if x <? infinity then chdtrc df x
  else 0.

End Scipy.

(** ** Sample size estimation *)

Section SampleSize.

(** [scipy.special.ndtri], behind [norm.ppf], which returns a NumPy
    float64. *)
Variable ndtri : float -> float.

(** The C library's [pow]: [x ** 2] on a NumPy float64 scalar is
    [pow(x, 2.0)], which need not be the correctly rounded square.  It
    raises nothing (an overflow is [inf] and a warning). *)
Variable npy_pow : float -> float -> float.

Local Open Scope float_scope.

(** The first [if] of [get_sample_estimate]: the quantile for the
    significance level and the number of tails. *)
Definition z_alpha_of (sig : float) (tail : Z) : result float :=
  if (tail =? 1)%Z then Ok (Scipy.norm_ppf ndtri (1 - sig))
  else if (tail =? 2)%Z then Ok (Scipy.norm_ppf ndtri (1 - sig / 2))
  else Raise (Exception "tail can only be 1 or 2").

(** [get_sample_estimate(sig, power, mde, p1, sigma1=None,
    var_type='binomial', tail=1)].  [z_alpha] and [z_beta] are NumPy
    scalars, so every operation they take part in is NumPy's; [p1*(1-p1)],
    [p2*(1-p2)] and [mde/sigma1] are computed on Python floats. *)
Definition get_sample_estimate (sig power mde p1 : float)
    (sigma1 : option float) (var_type : string) (tail : Z) : result float :=
  z_alpha <- z_alpha_of sig tail ;;
  let z_beta := Scipy.norm_ppf ndtri power in
  let p2 := p1 + mde in
  if String.eqb var_type "binomial" then
    s1 <- math_sqrt (p1 * (1 - p1)) ;;
    s2 <- math_sqrt (p2 * (1 - p2)) ;;
    Ok (npy_pow ((z_alpha * s1 + z_beta * s2) / mde) 2)
  else if String.eqb var_type "continuous" then
    match sigma1 with
    | None => Raise TypeError
    | Some sigma =>
        d <- truediv mde sigma ;;
        Ok (npy_pow ((z_alpha + z_beta) / d) 2)
    end
  else Raise (Exception "var_type can only be binomial or continuous").

End SampleSize.

(** ** Integers meeting floats *)

Module PyInt.

(** An integer as an unrounded binary float: mantissa [|z|], exponent 0. *)
Definition Z2SF (z : Z) : spec_float :=
  match z with
  | Z0 => S754_zero false
  | Zpos p => S754_finite false p 0
  | Zneg p => S754_finite true p 0
  end.

(** The quotient of two integers rounded once, to the nearest binary64. *)
Definition quotient (a b : Z) : float := SF2Prim (SF64div (Z2SF a) (Z2SF b)).

(** [a / b] on two Python ints (CPython's [long_true_divide]):
    ZeroDivisionError on a zero divisor, OverflowError when the quotient is
    too large for a float, the correctly rounded quotient otherwise. *)
Definition truediv (a b : Z) : result float :=
  if b =? 0 then Raise ZeroDivisionError
  else
    match SF64div (Z2SF a) (Z2SF b) with
    | S754_infinity _ => Raise OverflowError
    | q => Ok (SF2Prim q)
    end.

(** An int that meets a float in arithmetic is rounded to the nearest
    binary64. *)
Definition to_float (z : Z) : float :=
  SF2Prim (binary_normalize prec emax z 0 false).

(** [sys.maxsize] of a 64-bit CPython: no list is longer. *)
Definition sys_maxsize : Z := 2 ^ 63 - 1.

(** [sum(l)] on a list of floats: the start value is the int [0]. *)
Definition sum (l : list float) : float := fold_left PrimFloat.add l 0%float.

End PyInt.

Module Numpy.

(** An integer array element converted to float64 (round to nearest). *)
Definition float64_of_int (z : Z) : spec_float :=
  binary_normalize prec emax z 0 false.

(** The same, as a float64 element. *)
Definition float64 (z : Z) : float := SF2Prim (float64_of_int z).

(** [np.asarray(l, dtype=float64)] on a list of ints. *)
Definition asarray_float64 (l : list Z) : list float := map float64 l.

(** [a ** 2] on an element of a float64 array: the power ufunc takes the
    exponent 2 to [square], the IEEE product. *)
Definition square (x : float) : float := (x * x)%float.

(** [np.minimum(a, b)]: the smaller one, a NaN if there is one. *)
Definition minimum (a b : float) : float :=
  if (a <=? b)%float || is_nan a then a else b.

(** [a.sum()] on a one-dimensional float64 array. *)
Definition sum (l : list float) : float :=
  match l with
  | [] => 0%float
  | x :: r => fold_left PrimFloat.add r x
  end.

(** Two one-dimensional arrays broadcast to a common shape: equal lengths,
    or one of them of length 1 and repeated; ValueError otherwise. *)
Definition broadcast (a b : list float) : result (list float * list float) :=
  if (length a =? length b)%nat then Ok (a, b)
  else if (length a =? 1)%nat then Ok (repeat (hd 0%float a) (length b), b)
  else if (length b =? 1)%nat then Ok (a, repeat (hd 0%float b) (length a))
  else Raise ValueError.

End Numpy.

(** ** Drawing samples *)

Section Sampling.

(** The state of Python's [random] generator, and [random.uniform(a, b)] on
    it: the value drawn and the state after the draw. *)
Context {rng : Type}.
Variable random_uniform : float -> float -> rng -> float * rng.

(** The inner [draw_sample(p)]. *)
Definition draw_sample (p : float) (s : rng) : Z * rng :=
  let (u, s') := random_uniform 0 1 s in
  ((if (u <=? p)%float then 1 else 0), s').

(** The [for i in range(0, n)] loop, [o] being the list built so far. *)
Fixpoint draw_loop (k : nat) (p : float) (o : list Z) (s : rng) : list Z * rng :=
  match k with
  | O => (o, s)
  | S k' =>
      let (x, s') := draw_sample p s in
      draw_loop k' p (o ++ [x]) s'
  end.

(** [draw_samples(p, n)]; [range(0, n)] is empty for [n <= 0]. *)
Definition draw_samples (p : float) (n : Z) (s : rng) : list Z * rng :=
  draw_loop (Z.to_nat n) p [] s.

(** The values the next [k] calls of [random.uniform(0, 1.0)] return. *)
Fixpoint uniform_draws (k : nat) (s : rng) : list float :=
  match k with
  | O => []
  | S k' => let (u, s') := random_uniform 0 1 s in u :: uniform_draws k' s'
  end.

(** The generator state after [k] draws. *)
Fixpoint rng_after (k : nat) (s : rng) : rng :=
  match k with
  | O => s
  | S k' => rng_after k' (snd (random_uniform 0 1 s))
  end.

End Sampling.

(** The outcome of one trial, given the value drawn. *)
Definition bernoulli (p u : float) : Z := if (u <=? p)%float then 1 else 0.

(** ** Evaluating results *)

(** [len(list(filter(lambda v: v == i, group)))]. *)
Definition count (i : Z) (group : list Z) : Z :=
  Z.of_nat (length (filter (fun v => v =? i) group)).

Section Significance.

(** [scipy.special.chdtrc], behind [chi2.sf]. *)
Variable chdtrc : Z -> float -> float.

(** The tolerance of the check of the sums, [finfo(float64).eps ** 0.5],
    which is [2 ^ -26]. *)
Definition rtol : float := 1.4901161193847656e-08%float.

(** The check of the sums: whether the sums of the observed and of the
    expected frequencies differ, relative to the smaller one, by more than
    [rtol].  A NaN (from [0 / 0] or [inf - inf]) does not. *)
Definition sums_differ (f_obs f_exp : list float) : bool :=
  let f_obs_sum := Numpy.sum f_obs in
  let f_exp_sum := Numpy.sum f_exp in
  let relative_diff :=
    (abs (f_obs_sum - f_exp_sum) / Numpy.minimum f_obs_sum f_exp_sum)%float in
  (rtol <? relative_diff)%float.

(** The terms of Pearson's statistic, [(f_obs - f_exp)**2 / f_exp] on
    float64 arrays; a zero divisor gives [inf] or [nan], not an exception. *)
Definition chisquare_terms (f_obs f_exp : list float) : list float :=
  map (fun oe => (Numpy.square (fst oe - snd oe) / snd oe)%float)
      (combine f_obs f_exp).

(** [scipy.stats.chisquare(f_obs, f_exp)] on two lists of ints, as in
    SciPy 1.14 and later: both are converted to float64 and broadcast;
    ValueError when their sums differ by more than the tolerance; then the
    statistic and [chi2.sf] of it with [k - 1] degrees of freedom for [k]
    terms.  (From 1.6 to 1.13 the tolerance is [1e-8]; before 1.6 the sums
    are not checked.) *)
Definition chisquare (f_obs f_exp : list Z) : result (float * float) :=
  b <- Numpy.broadcast (Numpy.asarray_float64 f_obs)
                       (Numpy.asarray_float64 f_exp) ;;
  let (f_obs_float, f_exp_float) := b in
  if sums_differ f_obs_float f_exp_float then Raise ValueError
  else
    let terms := chisquare_terms f_obs_float f_exp_float in
    let stat := Numpy.sum terms in
    Ok (stat, Scipy.chi2_sf chdtrc stat (Z.of_nat (length terms) - 1)).

(** The significance cell: [test_group] is the observed group,
    [control_group] the expected one. *)
Definition significance_test (test_group control_group : list Z)
  : result (float * float) :=
  let f_obs := [count 0 test_group; count 1 test_group] in
  let f_exp := [count 0 control_group; count 1 control_group] in
  chisquare f_obs f_exp.

End Significance.

Section Power.

(** [scipy.special.chdtr], behind [chi2.cdf]. *)
Variable chdtr : Z -> float -> float.

(** The [for i in (0, 1)] loop of the power cell, [r_int] being the list
    built so far. *)
Fixpoint r_int_loop (cats : list Z) (test_group control_group : list Z)
    (r_int : list float) : result (list float) :=
  match cats with
  | [] => Ok r_int
  | i :: rest =>
      let o := count i test_group in
      let e := count i control_group in
      r <- PyInt.truediv ((o - e) ^ 2) e ;;
      r_int_loop rest test_group control_group (r_int ++ [r])
  end.

(** The argument handed to [st.chi2.cdf]: [sum(r_int) * 5000]. *)
Definition power_lambda (test_group control_group : list Z) : result float :=
  r_int <- r_int_loop [0; 1] test_group control_group [] ;;
  Ok (PyInt.sum r_int * 5000)%float.

(** The power cell: [st.chi2.cdf(sum(r_int) * 5000, 1)]. *)
Definition power_estimate (test_group control_group : list Z) : result float :=
  lam <- power_lambda test_group control_group ;;
  Ok (Scipy.chi2_cdf chdtr lam 1).

End Power.

(** ** The cells around the functions *)

Section Experiment.

Context {rng : Type}.
Variable random_uniform : float -> float -> rng -> float * rng.

(** The cell that draws the two groups: the control group first, the test
    group after it, from the one generator of the [random] module. *)
Definition draw_groups (s : rng) : list Z * list Z * rng :=
  let (control_group, s1) := draw_samples random_uniform 0.04 5000 s in
  let (test_group, s2) := draw_samples random_uniform 0.055 5000 s1 in
  (control_group, test_group, s2).

End Experiment.

(** [sum(group)] on a list of ints. *)
Definition int_sum (group : list Z) : Z := fold_left Z.add group 0.

(** [sum(group) / len(group)], the click-through rate of a group. *)
Definition click_through_rate (group : list Z) : result float :=
  PyInt.truediv (int_sum group) (Z.of_nat (length group)).

(** The cell of the click-through rates: [ctr_ctrl], then [ctr_test], then
    the two percentages [ctr * 100] it prints. *)
Definition ctr_cell (control_group test_group : list Z) : result (float * float) :=
  ctr_ctrl <- click_through_rate control_group ;;
  ctr_test <- click_through_rate test_group ;;
  Ok (ctr_ctrl * 100, ctr_test * 100)%float.

(** An outcome sequence: every value is 0 or 1. *)
Definition binary (group : list Z) : Prop :=
  Forall (fun v => v = 0 \/ v = 1) group.

(** ** What the spec says of the power estimate *)

(** The spec's noncentrality parameter, in its words: [n * sum r_i] with
    [r_i = (O_i - E_i)^2 / E_i] and [n] the length of the observed group. *)
Definition spec_power_lambda (observed expected : list Z) : float :=
  let r i := PyInt.quotient ((count i observed - count i expected) ^ 2)
                            (count i expected) in
  (PyInt.to_float (Z.of_nat (length observed)) * PyInt.sum [r 0%Z; r 1%Z])%float.

(** The spec's power, in its words: the CDF of the noncentral chi-square
    distribution with 1 degree of freedom, [lambda] being its noncentrality
    parameter, evaluated at [lambda].  [ncx2_cdf x df nc] is that CDF, a
    primitive of the statistics library. *)
Definition spec_power_estimate (ncx2_cdf : float -> Z -> float -> float)
    (observed expected : list Z) : float :=
  let lambda := spec_power_lambda observed expected in
  ncx2_cdf lambda 1 lambda.

(** ** Reference data: the notebook's run *)

(** Outcome sequences with given numbers of zeros and ones. *)
Definition outcomes (zeros ones : nat) : list Z := repeat 0 zeros ++ repeat 1 ones.

(** [ndtri] at the two quantiles the run asks for, as SciPy returns them. *)
Definition ndtri_table (q : float) : float :=
  (if q =? 0.99 then 2.3263478740408408
   else if q =? 0.8 then 0.8416212335729143
   else nan)%float.

(** [chdtrc] at the run's statistic. *)
Definition chdtrc_table (df : Z) (x : float) : float :=
  (if x =? 29.205285225642722 then 6.510138201463369e-08 else nan)%float.

(** [chdtr] where it has reached 1, as at the run's argument. *)
Definition chdtr_table (df : Z) (x : float) : float :=
  (if 100 <=? x then 1 else nan)%float.

(** The noncentral CDF with one degree of freedom at [x = nc], where it is
    [Phi(0) - Phi(-2 * sqrt nc)]: 0.5 in binary64 once [nc] is 100 or
    more. *)
Definition ncx2_cdf_table (x : float) (df : Z) (nc : float) : float :=
  (if (df =? 1)%Z && (x =? nc) && (100 <=? nc) then 0.5 else nan)%float.

(** C's [pow] with the exponent 2 at two arguments [get_sample_estimate]
    reaches with the quantiles above, as glibc returns it: at the run's
    [p1 = 0.04], and at [p1 = 0.5], where it is not the rounded product. *)
Definition pow_table (x y : float) : float :=
  (if y =? 2 then
     if x =? 63.929631574279796 then 4086.9977932231523
     else if x =? 158.3900383265624 then 25087.40424108991
     else nan
   else nan)%float.

(** A [pow] that rounds every square correctly. *)
Definition pow_rounded (x y : float) : float :=
  (if y =? 2 then x * x else nan)%float.

(** A generator whose every draw is the same value. *)
Definition constant_uniform (u : float) (a b : float) (s : unit) : float * unit :=
  (u, s).

(** ** What the spec says of the estimator's errors *)

(** The three conditions under which the spec has [get_sample_estimate]
    fail: a tail count other than 1 or 2, an unrecognized variance type, a
    continuous variable with no [sigma1]. *)
Definition bad_arguments (sigma1 : option float) (var_type : string) (tail : Z) : Prop :=
  (tail <> 1 /\ tail <> 2) \/
  (var_type <> "binomial"%string /\ var_type <> "continuous"%string) \/
  (var_type = "continuous"%string /\ sigma1 = None).

(** The ways a call of [get_sample_estimate] can end, each with the
    condition on the arguments that leads there. *)
Inductive estimate_outcome (p1 p2 : float) (sigma1 : option float)
    (var_type : string) (tail : Z) : result float -> Prop :=
| outcome_bad_tail :
    tail <> 1 -> tail <> 2 ->
    estimate_outcome p1 p2 sigma1 var_type tail
      (Raise (Exception "tail can only be 1 or 2"))
| outcome_bad_var_type :
    tail = 1 \/ tail = 2 ->
    var_type <> "binomial"%string -> var_type <> "continuous"%string ->
    estimate_outcome p1 p2 sigma1 var_type tail
      (Raise (Exception "var_type can only be binomial or continuous"))
| outcome_no_sigma :
    tail = 1 \/ tail = 2 ->
    var_type = "continuous"%string -> sigma1 = None ->
    estimate_outcome p1 p2 sigma1 var_type tail (Raise TypeError)
| outcome_domain :
    tail = 1 \/ tail = 2 ->
    var_type = "binomial"%string ->
    (p1 * (1 - p1) <? 0)%float = true \/ (p2 * (1 - p2) <? 0)%float = true ->
    estimate_outcome p1 p2 sigma1 var_type tail (Raise ValueError)
| outcome_zero_sigma sigma :
    tail = 1 \/ tail = 2 ->
    var_type = "continuous"%string -> sigma1 = Some sigma ->
    (sigma =? 0)%float = true ->
    estimate_outcome p1 p2 sigma1 var_type tail (Raise ZeroDivisionError)
| outcome_value v :
    tail = 1 \/ tail = 2 ->
    (var_type = "binomial"%string /\
     (p1 * (1 - p1) <? 0)%float = false /\ (p2 * (1 - p2) <? 0)%float = false)
    \/ (var_type = "continuous"%string /\
        exists sigma, sigma1 = Some sigma /\ (sigma =? 0)%float = false) ->
    estimate_outcome p1 p2 sigma1 var_type tail (Ok v).

(** Refutes [bad_arguments] on arguments that are concrete enough. *)
Ltac refute_bad_arguments :=
  intros [[? ?]|[[? ?]|[? ?]]]; (lia || congruence).

(** ** Shapes of binary64 values *)

(** Strictly positive, possibly infinite. *)
Definition SF_positive (x : spec_float) : bool :=
  match x with
  | S754_finite false _ _ | S754_infinity false => true
  | _ => false
  end.

(** The sign bit is clear: [+0.0], a positive number or [+inf]. *)
Definition SF_nonneg (x : spec_float) : bool :=
  match x with
  | S754_zero false | S754_finite false _ _ | S754_infinity false => true
  | _ => false
  end.

(** Not below zero: the sign bit is clear, or the value is [nan]. *)
Definition SF_not_negative (x : spec_float) : bool :=
  match x with
  | S754_nan => true
  | _ => SF_nonneg x
  end.

(** The float64 of a positive integer below [2 ^ 53]. *)
Definition canonical_int (n : Z) : spec_float :=
  S754_finite false (Z.to_pos (n * 2 ^ (prec - Zdigits2 n))) (Zdigits2 n - prec).

(** * Rounding at the specification level

    [binary_round_aux] shifts a mantissa right and rounds it.  A mantissa
    that is not negative stays so, a positive one whose exponent is at
    least [emin] stays positive, and a bound on the mantissa bounds the
    exponent of the result. *)

(** One shift halves the mantissa; [n] shifts divide it by [2 ^ n]. *)
Lemma shr_1_m mrs : 0 <= shr_m mrs -> shr_m (shr_1 mrs) = Z.div2 (shr_m mrs).
Proof.
  destruct mrs as [m r s]; simpl.
  destruct m as [|p|p]; [reflexivity| |lia].
  destruct p; reflexivity.
Qed.

Lemma iter_shr_1_m n : forall mrs,
  0 <= shr_m mrs ->
  shr_m (iter_pos shr_1 n mrs) = shr_m mrs / 2 ^ Zpos n.
Proof.
  assert (step : forall mrs, 0 <= shr_m mrs ->
            shr_m (shr_1 mrs) = shr_m mrs / 2 ^ 1).
  { intros mrs H. rewrite shr_1_m by assumption. apply Z.div2_div. }
  assert (pw : forall k, 0 < 2 ^ Zpos k) by (intro; apply Z.pow_pos_nonneg; lia).
  assert (nn : forall m k, 0 <= m -> 0 <= m / 2 ^ Zpos k)
    by (intros; apply Z.div_pos; auto).
  induction n as [n IH|n IH|]; intros mrs H; simpl iter_pos.
  - assert (H1 : 0 <= shr_m (shr_1 mrs)) by (rewrite step by assumption; auto).
    rewrite IH by (rewrite IH by assumption; auto).
    rewrite IH, step by assumption.
    rewrite !Z.div_div by (pose proof (pw n); pose proof (pw 1%positive); nia).
    f_equal. rewrite <- !Z.pow_add_r by lia. f_equal. lia.
  - rewrite IH by (rewrite IH by assumption; auto).
    rewrite IH by assumption.
    rewrite !Z.div_div by (pose proof (pw n); nia).
    f_equal. rewrite <- !Z.pow_add_r by lia. f_equal. lia.
  - apply step; assumption.
Qed.

(** A number of [d] binary digits is at least [2 ^ (d - 1)]. *)
Lemma digits2_pos_lower p : 2 ^ (Zpos (digits2_pos p) - 1) <= Zpos p.
Proof.
  induction p as [p IH|p IH|]; simpl digits2_pos; [| |simpl; lia];
    rewrite Pos2Z.inj_succ;
    replace (Z.succ (Zpos (digits2_pos p)) - 1)
      with (Z.succ (Zpos (digits2_pos p) - 1)) by lia;
    rewrite Z.pow_succ_r by lia; lia.
Qed.

Lemma shr_m_record_of_loc m l : shr_m (shr_record_of_loc m l) = m.
Proof. destruct l as [|[]]; reflexivity. Qed.

Lemma shr_nonneg mrs e n :
  0 <= shr_m mrs -> 0 <= shr_m (fst (shr mrs e n)).
Proof.
  intros H. destruct n; simpl; try assumption.
  rewrite iter_shr_1_m by assumption.
  apply Z.div_pos; [assumption|apply Z.pow_pos_nonneg; lia].
Qed.

Lemma shr_fexp_nonneg m e l :
  0 <= m -> 0 <= shr_m (fst (shr_fexp prec emax m e l)).
Proof.
  intros H. unfold shr_fexp. apply shr_nonneg.
  rewrite shr_m_record_of_loc. assumption.
Qed.

(** Rounding to the format keeps a positive mantissa positive: it drops
    fewer digits than the mantissa has. *)
Lemma shr_fexp_pos p e l :
  emin <= e ->
  0 < shr_m (fst (shr_fexp prec emax (Zpos p) e l)) /\
  emin <= snd (shr_fexp prec emax (Zpos p) e l).
Proof.
  intros He. unfold shr_fexp, shr, Zdigits2.
  set (d := Zpos (digits2_pos p)).
  destruct (fexp prec emax (d + e) - e) as [|k|k] eqn:Ek; simpl;
    rewrite ?shr_m_record_of_loc; try (split; lia).
  rewrite iter_shr_1_m by (rewrite shr_m_record_of_loc; lia).
  rewrite shr_m_record_of_loc.
  assert (Hk : Zpos k <= d - 1).
  { unfold fexp in Ek. revert He Ek. unfold SpecFloat.emin, prec, emax. lia. }
  pose proof (digits2_pos_lower p) as Hd. fold d in Hd.
  assert (Hp : 2 ^ Zpos k <= 2 ^ (d - 1)) by (apply Z.pow_le_mono_r; lia).
  assert (H2 : 0 < 2 ^ Zpos k) by (apply Z.pow_pos_nonneg; lia).
  split; [|lia].
  apply Z.div_str_pos. lia.
Qed.

Lemma round_nearest_even_le m l : m <= round_nearest_even m l.
Proof. destruct l as [|[]]; simpl; try lia. destruct (Z.even m); lia. Qed.

Lemma binary_round_aux_positive sx p e l :
  emin <= e ->
  exists m' e', binary_round_aux prec emax sx (Zpos p) e l = S754_finite sx m' e'
             \/ binary_round_aux prec emax sx (Zpos p) e l = S754_infinity sx.
Proof.
  intros He. unfold binary_round_aux.
  destruct (shr_fexp_pos p e l He) as [Hm He'].
  destruct (shr_fexp prec emax (Zpos p) e l) as [mrs' e']. simpl in Hm, He'.
  pose proof (round_nearest_even_le (shr_m mrs') (loc_of_shr_record mrs')) as Hr.
  destruct (round_nearest_even (shr_m mrs') (loc_of_shr_record mrs'))
    as [|q|q]; try lia.
  destruct (shr_fexp_pos q e' loc_Exact He') as [Hm2 _].
  destruct (shr_fexp prec emax (Zpos q) e' loc_Exact) as [mrs'' e'']. simpl in Hm2.
  destruct (shr_m mrs'') as [|m|m]; try lia.
  exists m, e''. destruct (e'' <=? emax - prec); auto.
Qed.

Lemma binary_round_aux_not_nan sx m e l :
  0 <= m -> binary_round_aux prec emax sx m e l <> S754_nan.
Proof.
  intros Hm. unfold binary_round_aux.
  pose proof (shr_fexp_nonneg m e l Hm) as H1.
  destruct (shr_fexp prec emax m e l) as [mrs' e']. simpl in H1.
  pose proof (round_nearest_even_le (shr_m mrs') (loc_of_shr_record mrs')) as Hr.
  assert (H2 : 0 <= round_nearest_even (shr_m mrs') (loc_of_shr_record mrs')) by lia.
  pose proof (shr_fexp_nonneg _ e' loc_Exact H2) as H3.
  destruct (shr_fexp prec emax _ e' loc_Exact) as [mrs'' e'']. simpl in H3.
  destruct (shr_m mrs'') as [|q|q]; try lia; try discriminate.
  destruct (e'' <=? emax - prec); discriminate.
Qed.

(** A positive integer converts to a positive float, never to zero. *)
Lemma float64_of_int_positive z :
  0 < z -> SF_positive (Numpy.float64_of_int z) = true.
Proof.
  intros Hz. destruct z as [|p|p]; try lia.
  unfold Numpy.float64_of_int, binary_normalize, binary_round.
  destruct (shl_align p 0 (fexp prec emax (Zpos (digits2_pos p) + 0)))
    as [mz ez] eqn:E.
  assert (He : emin <= ez).
  { unfold shl_align in E.
    destruct (fexp prec emax (Zpos (digits2_pos p) + 0) - 0) eqn:Ed;
      inversion E; subst; unfold fexp, SpecFloat.emin, prec, emax in *; lia. }
  destruct (binary_round_aux_positive false mz ez loc_Exact He)
    as (m' & e' & [H|H]); rewrite H; reflexivity.
Qed.

(** ** Primitive floats through their specification *)

Local Open Scope float_scope.

Lemma SFcompare_refl x : x <> S754_nan -> SFcompare x x = Some Eq.
Proof.
  destruct x as [s|s| |s m e]; intros H; try congruence;
    try (destruct s; reflexivity).
  simpl. rewrite Z.compare_refl.
  assert (Pos.compare_cont Eq m m = Eq) as -> by apply Pos.compare_cont_refl.
  destruct s; reflexivity.
Qed.

Lemma is_nan_spec f :
  is_nan f = match Prim2SF f with S754_nan => true | _ => false end.
Proof.
  unfold is_nan. rewrite eqb_spec. unfold SFeqb.
  destruct (Prim2SF f) eqn:E; try reflexivity;
    rewrite SFcompare_refl by discriminate; reflexivity.
Qed.

Lemma Prim2SF_zero : Prim2SF 0 = S754_zero false.
Proof. reflexivity. Qed.

(** [math.sqrt] raises exactly on the numbers below zero. *)
Lemma math_sqrt_spec x :
  math_sqrt x = if x <? 0 then Raise ValueError else Ok (sqrt x).
Proof.
  unfold math_sqrt. rewrite !is_nan_spec, sqrt_spec, ltb_spec, Prim2SF_zero.
  unfold SFltb.
  destruct (Prim2SF x) as [s|s| |s m e];
    try (destruct s; reflexivity); try reflexivity.
  destruct s; [reflexivity|].
  simpl SFcompare. cbv iota.
  unfold SF64sqrt, SFsqrt.
  destruct (SFsqrt_core_binary prec emax (Zpos m) e) as [[mz ez] lz] eqn:E.
  assert (Hmz : (0 <= mz)%Z).
  { unfold SFsqrt_core_binary in E.
    match type of E with context [Z.sqrtrem ?a] =>
      pose proof (Z.sqrtrem_spec a) as Hs; destruct (Z.sqrtrem a) as [q r] end.
    inversion E; subst.
    match type of Hs with (0 <= ?a)%Z -> _ => assert (Ha : (0 <= a)%Z) end.
    { destruct (e - 2 * _)%Z; try apply Z.shiftl_nonneg; lia. }
    specialize (Hs Ha). nia. }
  pose proof (binary_round_aux_not_nan false mz ez lz Hmz) as Hn.
  destruct (binary_round_aux prec emax false mz ez lz); try reflexivity.
  congruence.
Qed.

Lemma eqb_leb u v : (u =? v) = true -> (u <=? v) = true.
Proof.
  rewrite eqb_spec, leb_spec. unfold SFeqb, SFleb.
  destruct (SFcompare (Prim2SF u) (Prim2SF v)) as [[]|]; congruence.
Qed.

Lemma ltb_leb u v : (u <? v) = true -> (u <=? v) = true.
Proof.
  rewrite ltb_spec, leb_spec. unfold SFltb, SFleb.
  destruct (SFcompare (Prim2SF u) (Prim2SF v)) as [[]|]; congruence.
Qed.

Lemma SFcompare_antisym x y :
  SFcompare x y = Some Lt -> SFcompare y x = Some Gt.
Proof.
  destruct x as [sx|sx| |sx mx ex], y as [sy|sy| |sy my ey]; simpl;
    try destruct sx; try destruct sy; try congruence;
    change (Pos.compare_cont Eq my mx) with (my ?= mx)%positive;
    change (Pos.compare_cont Eq mx my) with (mx ?= my)%positive;
    rewrite (Z.compare_antisym ex ey), (Pos.compare_antisym mx my);
    destruct (ex ?= ey)%Z; simpl; try congruence;
    destruct (mx ?= my)%positive; simpl; congruence.
Qed.

Lemma ltb_not_leb u v : (u <? v) = true -> (v <=? u) = false.
Proof.
  rewrite ltb_spec, leb_spec. unfold SFltb, SFleb.
  destruct (SFcompare (Prim2SF u) (Prim2SF v)) as [[]|] eqn:E; try congruence.
  rewrite (SFcompare_antisym _ _ E). reflexivity.
Qed.

Local Close Scope float_scope.

(** ** No overflow below [2 ^ 1023] *)

(** A number below [2 ^ k] has at most [k] binary digits. *)
Lemma digits2_pos_upper p : forall k,
  0 <= k -> Zpos p < 2 ^ k -> Zpos (digits2_pos p) <= k.
Proof.
  induction p as [p IH|p IH|]; intros k Hk H; simpl digits2_pos.
  - assert (k <> 0) by (intros ->; simpl in H; lia).
    replace k with (Z.succ (k - 1)) in H by lia.
    rewrite Z.pow_succ_r in H by lia.
    specialize (IH (k - 1)). lia.
  - assert (k <> 0) by (intros ->; simpl in H; lia).
    replace k with (Z.succ (k - 1)) in H by lia.
    rewrite Z.pow_succ_r in H by lia.
    specialize (IH (k - 1)). lia.
  - assert (k <> 0) by (intros ->; simpl in H; lia). lia.
Qed.

Lemma Zdigits2_upper m k : 0 <= m -> 0 <= k -> m < 2 ^ k -> Zdigits2 m <= k.
Proof.
  destruct m as [|p|p]; simpl; intros; try lia.
  apply digits2_pos_upper; assumption.
Qed.

(** Rounding a mantissa below [2 ^ k] to the format: the exponent it ends
    at, and a bound [2 ^ k1] on the mantissa left. *)
Lemma shr_fexp_bounds m e l k :
  0 <= m -> 0 <= k -> m < 2 ^ k ->
  0 <= shr_m (fst (shr_fexp prec emax m e l)) /\
  snd (shr_fexp prec emax m e l) <= Z.max e (Z.max (k + e - prec) emin) /\
  exists k1, 0 <= k1 /\ shr_m (fst (shr_fexp prec emax m e l)) < 2 ^ k1 /\
             k1 + snd (shr_fexp prec emax m e l) <= Z.max (k + e) emin.
Proof.
  intros Hm Hk Hlt.
  split; [apply shr_fexp_nonneg; assumption|].
  pose proof (Zdigits2_upper m k Hm Hk Hlt) as Hd.
  unfold shr_fexp, shr.
  destruct (fexp prec emax (Zdigits2 m + e) - e) as [|n|n] eqn:En; simpl;
    rewrite ?shr_m_record_of_loc.
  - split; [lia|]. exists k. lia.
  - assert (He1 : e + Zpos n <= Z.max (k + e - prec) emin).
    { unfold fexp in En. unfold SpecFloat.emin, prec, emax in *. lia. }
    split; [lia|].
    rewrite iter_shr_1_m by (rewrite shr_m_record_of_loc; assumption).
    rewrite shr_m_record_of_loc.
    assert (H2 : 0 < 2 ^ Zpos n) by (apply Z.pow_pos_nonneg; lia).
    destruct (Z_le_gt_dec (Zpos n) k) as [Le|Gt].
    + exists (k - Zpos n). split; [lia|]. split; [|lia].
      apply Z.div_lt_upper_bound; [assumption|].
      rewrite <- Z.pow_add_r by lia. replace (Zpos n + (k - Zpos n)) with k by lia.
      assumption.
    + exists 0. split; [lia|]. split.
      * assert (2 ^ k <= 2 ^ Zpos n) by (apply Z.pow_le_mono_r; lia).
        rewrite Z.div_small by lia. simpl. lia.
      * unfold prec in *. lia.
  - split; [lia|]. exists k. lia.
Qed.

Lemma round_nearest_even_succ m l : round_nearest_even m l <= m + 1.
Proof. destruct l as [|[]]; simpl; try lia. destruct (Z.even m); lia. Qed.

(** A mantissa below [2 ^ k] at exponent [e] does not round to infinity
    as long as [k + e] is at most 1023. *)
Lemma binary_round_aux_finite sx m e l k :
  0 <= m -> 0 <= k -> m < 2 ^ k ->
  Z.max e (k + e - 52) <= emax - prec ->
  forall s, binary_round_aux prec emax sx m e l <> S754_infinity s.
Proof.
  intros Hm Hk Hlt Hb s. unfold binary_round_aux.
  destruct (shr_fexp_bounds m e l k Hm Hk Hlt) as (N1 & E1 & k1 & Hk1 & B1 & T1).
  destruct (shr_fexp prec emax m e l) as [mrs' e']. simpl in N1, E1, B1, T1.
  pose proof (round_nearest_even_le (shr_m mrs') (loc_of_shr_record mrs')) as Rl.
  pose proof (round_nearest_even_succ (shr_m mrs') (loc_of_shr_record mrs')) as Rs.
  set (m1 := round_nearest_even (shr_m mrs') (loc_of_shr_record mrs')) in *.
  assert (Hm1 : m1 < 2 ^ (k1 + 1)).
  { rewrite Z.pow_add_r by lia. change (2 ^ 1) with 2. lia. }
  destruct (shr_fexp_bounds m1 e' loc_Exact (k1 + 1)) as (N2 & E2 & _); try lia.
  destruct (shr_fexp prec emax m1 e' loc_Exact) as [mrs'' e'']. simpl in N2, E2.
  destruct (shr_m mrs'') as [|q|q]; try discriminate.
  assert ((e'' <=? emax - prec) = true) as ->; [|discriminate].
  apply Z.leb_le. unfold SpecFloat.emin, prec, emax in *. lia.
Qed.

(** The quotient of two integers, the dividend below [2 ^ 1023], is
    finite. *)
Lemma SFdiv_int_finite sa a sb b :
  Zpos a < 2 ^ 1023 ->
  forall s, SF64div (S754_finite sa a 0) (S754_finite sb b 0) <> S754_infinity s.
Proof.
  intros Ha s. unfold SF64div, SFdiv.
  destruct (SFdiv_core_binary prec emax (Zpos a) 0 (Zpos b) 0)
    as [[mz ez] lz] eqn:E.
  unfold SFdiv_core_binary in E.
  set (e' := Z.min (fexp prec emax (Zdigits2 (Zpos a) + 0
                                    - (Zdigits2 (Zpos b) + 0))) (0 - 0)) in E.
  set (m' := match 0 - 0 - e' with
             | Zpos _ => Z.shiftl (Zpos a) (0 - 0 - e')
             | Z0 => Zpos a
             | Zneg _ => 0
             end) in E.
  assert (He' : e' <= 0) by (unfold e'; lia).
  assert (Hm' : 0 <= m' < 2 ^ (1023 - e')).
  { unfold m'. destruct (0 - 0 - e') as [|n|n] eqn:En.
    - replace e' with 0 by lia. simpl (1023 - 0). lia.
    - rewrite Z.shiftl_mul_pow2 by lia.
      assert (0 < 2 ^ Zpos n) by (apply Z.pow_pos_nonneg; lia).
      replace (1023 - e') with (1023 + Zpos n) by lia.
      rewrite Z.pow_add_r by lia. nia.
    - lia. }
  pose proof (Z_div_mod m' (Zpos b) eq_refl) as Hdiv.
  destruct (Z.div_eucl m' (Zpos b)) as [q r].
  inversion E; subst mz ez lz. clear E.
  apply (binary_round_aux_finite _ q e' _ (1023 - e')); try lia; try nia.
  unfold prec, emax. lia.
Qed.

(** * The operations of the model *)

Local Open Scope float_scope.

Lemma float_mul_comm x y : x * y = y * x.
Proof.
  apply Prim2SF_inj. rewrite !mul_spec. unfold SF64mul.
  destruct (Prim2SF x) as [sx|sx| |sx mx ex], (Prim2SF y) as [sy|sy| |sy my ey];
    simpl; rewrite ?(xorb_comm sy sx); try reflexivity.
  rewrite (Pos.mul_comm my mx), (Z.add_comm ey ex). reflexivity.
Qed.

Lemma is_finite_spec x :
  is_finite x = match Prim2SF x with
                | S754_zero _ | S754_finite _ _ _ => true
                | _ => false
                end.
Proof.
  unfold is_finite, is_infinity. rewrite is_nan_spec, eqb_spec, abs_spec.
  change (Prim2SF infinity) with (S754_infinity false).
  destruct (Prim2SF x) as [s|s| |s m e]; try reflexivity.
Qed.

(** A finite sum has finite terms. *)
Lemma add_finite x y :
  is_finite (x + y) = true -> is_finite x = true /\ is_finite y = true.
Proof.
  rewrite !is_finite_spec, add_spec. unfold SF64add.
  destruct (Prim2SF x) as [sx|sx| |sx mx ex], (Prim2SF y) as [sy|sy| |sy my ey];
    simpl; try destruct sx; try destruct sy; simpl; auto; try discriminate.
Qed.

Lemma truediv_spec a b :
  truediv a b = if b =? 0 then Raise ZeroDivisionError else Ok (a / b).
Proof. reflexivity. Qed.

Local Close Scope float_scope.

Lemma PyInt_truediv_zero a : PyInt.truediv a 0 = Raise ZeroDivisionError.
Proof. reflexivity. Qed.

(** Python's int division returns the rounded quotient whenever the
    divisor is not zero and the dividend is below [2 ^ 1023]. *)
Lemma PyInt_truediv_ok a b :
  Z.abs a < 2 ^ 1023 -> b <> 0 -> PyInt.truediv a b = Ok (PyInt.quotient a b).
Proof.
  intros Ha Hb. unfold PyInt.truediv, PyInt.quotient.
  destruct (Z.eqb_spec b 0) as [|_]; [contradiction|].
  destruct a as [|a|a], b as [|b|b]; try contradiction; try reflexivity;
    simpl PyInt.Z2SF;
    match goal with
    | |- context [SF64div (S754_finite ?sa a 0) (S754_finite ?sb b 0)] =>
        pose proof (SFdiv_int_finite sa a sb b Ha) as Hfin;
        destruct (SF64div (S754_finite sa a 0) (S754_finite sb b 0))
          as [s|s| |s m e];
        try reflexivity; exfalso; apply (Hfin s); reflexivity
    end.
Qed.

(** ** Counting *)

Lemma count_nonneg i g : 0 <= count i g.
Proof. unfold count. lia. Qed.

Lemma count_le_length i g : count i g <= Z.of_nat (length g).
Proof.
  unfold count. apply Nat2Z.inj_le.
  induction g as [|v g IH]; simpl; [lia|]. destruct (v =? i); simpl; lia.
Qed.

Lemma count_outcomes zeros ones :
  count 0 (outcomes zeros ones) = Z.of_nat zeros /\
  count 1 (outcomes zeros ones) = Z.of_nat ones.
Proof.
  unfold count, outcomes. rewrite !filter_app, !length_app.
  assert (H0 : forall k, filter (fun v => v =? 0) (repeat 0 k) = repeat 0 k)
    by (induction k; simpl; congruence).
  assert (H1 : forall k, filter (fun v => v =? 1) (repeat 1 k) = repeat 1 k)
    by (induction k; simpl; congruence).
  assert (H01 : forall k, filter (fun v => v =? 0) (repeat 1 k) = [])
    by (induction k; simpl; congruence).
  assert (H10 : forall k, filter (fun v => v =? 1) (repeat 0 k) = [])
    by (induction k; simpl; congruence).
  rewrite H0, H1, H01, H10, !repeat_length. simpl. split; lia.
Qed.

Lemma squared_difference_bound o e :
  0 <= o <= PyInt.sys_maxsize -> 0 <= e <= PyInt.sys_maxsize ->
  Z.abs ((o - e) ^ 2) < 2 ^ 1023.
Proof.
  unfold PyInt.sys_maxsize. intros Ho He.
  rewrite Z.abs_eq by (apply Z.pow_even_nonneg; exists 1; reflexivity).
  assert (Hd : Z.abs (o - e) < 2 ^ 63) by lia.
  rewrite Z.pow_even_abs by (exists 1; reflexivity).
  apply Z.lt_trans with ((2 ^ 63) ^ 2).
  - apply Z.pow_lt_mono_l; lia.
  - rewrite <- Z.pow_mul_r by lia. apply Z.pow_lt_mono_r; lia.
Qed.

(** * Sample size estimation *)

Local Open Scope float_scope.

Lemma z_alpha_of_cases ndtri sig tail :
  z_alpha_of ndtri sig tail =
  if (tail =? 1)%Z then Ok (Scipy.norm_ppf ndtri (1 - sig))
  else if (tail =? 2)%Z then Ok (Scipy.norm_ppf ndtri (1 - sig / 2))
  else Raise (Exception "tail can only be 1 or 2").
Proof. reflexivity. Qed.

(** The function as a decision table: which exception, or which value. *)
Lemma get_sample_estimate_cases ndtri npy_pow sig power mde p1 sigma1 var_type tail :
  get_sample_estimate ndtri npy_pow sig power mde p1 sigma1 var_type tail =
  match z_alpha_of ndtri sig tail with
  | Raise e => Raise e
  | Ok z_alpha =>
      if String.eqb var_type "binomial" then
        if (p1 * (1 - p1) <? 0) || ((p1 + mde) * (1 - (p1 + mde)) <? 0)
        then Raise ValueError
        else Ok (npy_pow ((z_alpha * sqrt (p1 * (1 - p1))
                           + Scipy.norm_ppf ndtri power
                             * sqrt ((p1 + mde) * (1 - (p1 + mde)))) / mde) 2)
      else if String.eqb var_type "continuous" then
        match sigma1 with
        | None => Raise TypeError
        | Some sigma =>
            if sigma =? 0 then Raise ZeroDivisionError
            else Ok (npy_pow ((z_alpha + Scipy.norm_ppf ndtri power)
                              / (mde / sigma)) 2)
        end
      else Raise (Exception "var_type can only be binomial or continuous")
  end.
Proof.
  unfold get_sample_estimate.
  destruct (z_alpha_of ndtri sig tail) as [z_alpha|e]; [|reflexivity].
  cbn [bind].
  destruct (String.eqb var_type "binomial").
  - rewrite !math_sqrt_spec.
    destruct (p1 * (1 - p1) <? 0); [reflexivity|].
    cbn [bind orb].
    destruct ((p1 + mde) * (1 - (p1 + mde)) <? 0); reflexivity.
  - destruct (String.eqb var_type "continuous"); [|reflexivity].
    destruct sigma1 as [sigma|]; [|reflexivity].
    rewrite truediv_spec. destruct (sigma =? 0); reflexivity.
Qed.

(** Every call ends in one of the six ways of [estimate_outcome]. *)
Lemma get_sample_estimate_outcome ndtri npy_pow sig power mde p1 sigma1 var_type tail :
  estimate_outcome p1 (p1 + mde) sigma1 var_type tail
    (get_sample_estimate ndtri npy_pow sig power mde p1 sigma1 var_type tail).
Proof.
  rewrite get_sample_estimate_cases, z_alpha_of_cases.
  assert (Htail : tail = 1%Z \/ tail = 2%Z \/ (tail <> 1%Z /\ tail <> 2%Z)) by lia.
  destruct Htail as [-> | [-> | [T1 T2]]]; cbn [Z.eqb Pos.eqb].
  3:{ destruct (Z.eqb_spec tail 1); [contradiction|].
      destruct (Z.eqb_spec tail 2); [contradiction|].
      apply outcome_bad_tail; assumption. }
  all: assert (Htail : 1%Z = 1%Z \/ 1%Z = 2%Z) by (left; reflexivity);
       assert (Htail' : 2%Z = 1%Z \/ 2%Z = 2%Z) by (right; reflexivity).
  all: destruct (String.eqb_spec var_type "binomial") as [V1|V1].
  all: try (destruct (p1 * (1 - p1) <? 0) eqn:R1;
            [apply outcome_domain; auto|];
            destruct ((p1 + mde) * (1 - (p1 + mde)) <? 0) eqn:R2; cbn [orb];
            [apply outcome_domain; auto|apply outcome_value; auto]).
  all: destruct (String.eqb_spec var_type "continuous") as [V2|V2];
       [|apply outcome_bad_var_type; auto].
  all: destruct sigma1 as [sigma|] eqn:S1; [|apply outcome_no_sigma; auto].
  all: destruct (sigma =? 0) eqn:S0;
       [eapply outcome_zero_sigma; eauto|apply outcome_value; eauto 6].
Qed.

(** C1 (as amended): for a tail count of 1 or 2, [get_sample_estimate] takes
    the normal quantile at [1 - sig] (one tail) or [1 - sig/2] (two tails)
    for [zAlpha] and the one at [power] for [zBeta]; for a binomial variable
    it returns [((zAlpha*sqrt(p1*(1-p1)) + zBeta*sqrt(p2*(1-p2))) / mde)^2]
    with [p2 = p1 + mde] provided neither radicand is negative, and for a
    continuous one [((zAlpha + zBeta) / (mde/sigma1))^2] provided [sigma1]
    is supplied and is not zero.  The square is the one the C library's
    [pow] computes; the quotients, products and roots inside are rounded
    to the nearest binary64. *)
Theorem get_sample_estimate_formula
    (ndtri : float -> float) (npy_pow : float -> float -> float)
    (sig power mde p1 : float)
    (sigma1 : option float) (var_type : string) (tail : Z) :
  tail = 1%Z \/ tail = 2%Z ->
  let z_alpha :=
    Scipy.norm_ppf ndtri (if (tail =? 1)%Z then 1 - sig else 1 - sig / 2) in
  let z_beta := Scipy.norm_ppf ndtri power in
  let p2 := p1 + mde in
  (var_type = "binomial"%string ->
   (p1 * (1 - p1) <? 0) = false -> (p2 * (1 - p2) <? 0) = false ->
   get_sample_estimate ndtri npy_pow sig power mde p1 sigma1 var_type tail =
   Ok (npy_pow ((z_alpha * sqrt (p1 * (1 - p1))
                 + z_beta * sqrt (p2 * (1 - p2))) / mde) 2))
  /\
  (var_type = "continuous"%string ->
   forall sigma, sigma1 = Some sigma -> (sigma =? 0) = false ->
   get_sample_estimate ndtri npy_pow sig power mde p1 sigma1 var_type tail =
   Ok (npy_pow ((z_alpha + z_beta) / (mde / sigma)) 2)).
Proof.
  intros Htail z_alpha z_beta p2.
  assert (Hz : z_alpha_of ndtri sig tail = Ok z_alpha).
  { subst z_alpha. rewrite z_alpha_of_cases.
    destruct Htail as [-> | ->]; reflexivity. }
  rewrite get_sample_estimate_cases, Hz. split.
  - intros -> H1 H2. fold p2. rewrite H1, H2. reflexivity.
  - intros -> sigma -> Hs. rewrite Hs. reflexivity.
Qed.

Lemma get_sample_estimate_formula_witness :
  get_sample_estimate ndtri_table pow_table 0.01 0.8 0.01 0.04 None "binomial" 1
  = Ok 4086.9977932231523
  /\ get_sample_estimate ndtri_table pow_table 0.01 0.8 0.01 0.5 None "binomial" 1
     = Ok 25087.40424108991
  /\ get_sample_estimate ndtri_table pow_rounded 0.01 0.8 0.01 0.04 (Some 0.2)
       "continuous" 1
     = Ok (((2.3263478740408408 + 0.8416212335729143) / (0.01 / 0.2))
           * ((2.3263478740408408 + 0.8416212335729143) / (0.01 / 0.2))).
Proof.
  split; [|split].
  - exact (proj1 (get_sample_estimate_formula ndtri_table pow_table
                    0.01 0.8 0.01 0.04 None "binomial" 1 (or_introl eq_refl))
             eq_refl eq_refl eq_refl).
  - exact (proj1 (get_sample_estimate_formula ndtri_table pow_table
                    0.01 0.8 0.01 0.5 None "binomial" 1 (or_introl eq_refl))
             eq_refl eq_refl eq_refl).
  - exact (proj2 (get_sample_estimate_formula ndtri_table pow_rounded
                    0.01 0.8 0.01 0.04 (Some 0.2) "continuous" 1
                    (or_introl eq_refl))
             eq_refl 0.2 eq_refl eq_refl).
Defined.

(** C1, as stated, fails: with [sig = 0.01], [power = 0.8], [mde = 0.01],
    one tail and the probability [p1 = 0.995], [p2*(1-p2)] is negative and
    [math.sqrt] raises ValueError instead of a value being returned. *)
Lemma get_sample_estimate_domain_error :
  ((0 <? 0.01) && (0.01 <? 1) && (0 <? 0.8) && (0.8 <? 1)
   && negb (0.01 =? 0) && (0 <=? 0.995) && (0.995 <=? 1) = true)
  /\ get_sample_estimate ndtri_table pow_table 0.01 0.8 0.01 0.995 None "binomial" 1
     = Raise ValueError.
Proof. split; reflexivity. Qed.

(** C3 (as amended): [get_sample_estimate] rejects its arguments, with the
    notebook's own Exception or a TypeError and with no result, exactly when
    the tail count is not 1 or 2, or the variance type is neither
    ['binomial'] nor ['continuous'], or it is ['continuous'] and [sigma1] is
    absent.  These are not its only failures: every other one is the
    ValueError of [math.sqrt] on a negative [p1*(1-p1)] or [p2*(1-p2)]
    (binomial) or the ZeroDivisionError of [mde/sigma1] on a zero [sigma1]
    (continuous), and each of these does occur. *)
Theorem get_sample_estimate_failures
    (ndtri : float -> float) (npy_pow : float -> float -> float)
    (sig power mde p1 : float)
    (sigma1 : option float) (var_type : string) (tail : Z) :
  let r := get_sample_estimate ndtri npy_pow sig power mde p1 sigma1 var_type tail in
  let p2 := p1 + mde in
  (bad_arguments sigma1 var_type tail <->
   exists e, r = Raise e /\ is_argument_error e = true)
  /\
  (forall e, r = Raise e -> is_argument_error e = false ->
     (e = ValueError /\ var_type = "binomial"%string /\
      ((p1 * (1 - p1) <? 0) = true \/ (p2 * (1 - p2) <? 0) = true))
     \/
     (e = ZeroDivisionError /\ var_type = "continuous"%string /\
      exists sigma, sigma1 = Some sigma /\ (sigma =? 0) = true))
  /\
  (~ bad_arguments sigma1 var_type tail ->
   (var_type = "binomial"%string ->
    (p1 * (1 - p1) <? 0) = true \/ (p2 * (1 - p2) <? 0) = true ->
    r = Raise ValueError)
   /\
   (var_type = "continuous"%string ->
    forall sigma, sigma1 = Some sigma -> (sigma =? 0) = true ->
    r = Raise ZeroDivisionError)).
Proof.
  intros r p2.
  pose proof (get_sample_estimate_outcome ndtri npy_pow sig power mde p1
                sigma1 var_type tail) as H.
  fold r p2 in H. unfold bad_arguments.
  destruct H as [T1 T2 | T V1 V2 | T V S | T V R | sigma T V S Z0 | v T G].
  - (* the tail count is rejected *)
    split; [split; [eauto|tauto]|split].
    + intros e [= <-]; discriminate.
    + tauto.
  - (* the variance type is rejected *)
    split; [split; [eauto|tauto]|split].
    + intros e [= <-]; discriminate.
    + tauto.
  - (* a continuous variable with no sigma1 *)
    split; [split; [eauto|tauto]|split].
    + intros e [= <-]; discriminate.
    + tauto.
  - (* math.sqrt on a negative number *)
    subst var_type. split; [split|split].
    + refute_bad_arguments.
    + intros (e & [= <-] & He); discriminate.
    + intros e [= <-] _. left; auto.
    + intros _; split; [reflexivity|discriminate].
  - (* mde / sigma1 on a zero sigma1 *)
    subst var_type sigma1. split; [split|split].
    + refute_bad_arguments.
    + intros (e & [= <-] & He); discriminate.
    + intros e [= <-] _. right; eauto.
    + intros _; split; [discriminate|reflexivity].
  - (* a value is returned *)
    split; [split|split].
    + intros B. exfalso.
      destruct G as [(-> & _) | (-> & sigma & -> & _)];
        revert B; refute_bad_arguments.
    + intros (e & He & _); discriminate.
    + intros e He; discriminate.
    + intros _. split.
      * intros -> [R|R]; destruct G as [(_ & R1 & R2) | (V & _)]; congruence.
      * intros -> sigma -> Z0.
        destruct G as [(V & _) | (_ & s & [= <-] & Z1)]; congruence.
Qed.

Lemma get_sample_estimate_failures_witness :
  (exists e, get_sample_estimate ndtri_table pow_table 0.01 0.8 0.01 0.04 None "unknown" 3
             = Raise e /\ is_argument_error e = true)
  /\ get_sample_estimate ndtri_table pow_table 0.01 0.8 0.01 0.04 (Some 0) "continuous" 1
     = Raise ZeroDivisionError.
Proof.
  split.
  - apply (proj1 (proj1 (get_sample_estimate_failures ndtri_table pow_table
                           0.01 0.8 0.01 0.04 None "unknown" 3))).
    left. split; lia.
  - refine (proj2 (proj2 (proj2 (get_sample_estimate_failures ndtri_table pow_table
              0.01 0.8 0.01 0.04 (Some 0) "continuous" 1)) _)
            eq_refl 0 eq_refl eq_refl).
    refute_bad_arguments.
Defined.

(** C3, as stated, fails: none of the three conditions holds for one
    tail, a binomial variable and [p1 = -0.5], and the call still fails,
    with the ValueError of [math.sqrt] on the negative [p1*(1-p1)]. *)
Lemma get_sample_estimate_negative_probability :
  get_sample_estimate ndtri_table pow_table 0.01 0.8 0.01 (-0.5) None "binomial" 1
  = Raise ValueError
  /\ ~ bad_arguments None "binomial" 1.
Proof. split; [reflexivity|refute_bad_arguments]. Qed.

(** C9: the quantile [get_sample_estimate] uses with two tails at
    significance [sig] is the one it uses with one tail at [sig/2], and so,
    the other arguments being the same, are the two estimates. *)
Theorem two_tail_quantile
    (ndtri : float -> float) (npy_pow : float -> float -> float)
    (sig power mde p1 : float)
    (sigma1 : option float) (var_type : string) :
  z_alpha_of ndtri sig 2 = z_alpha_of ndtri (sig / 2) 1
  /\ z_alpha_of ndtri sig 2 = Ok (Scipy.norm_ppf ndtri (1 - sig / 2))
  /\ get_sample_estimate ndtri npy_pow sig power mde p1 sigma1 var_type 2
     = get_sample_estimate ndtri npy_pow (sig / 2) power mde p1 sigma1 var_type 1.
Proof.
  assert (Hz : z_alpha_of ndtri sig 2 = z_alpha_of ndtri (sig / 2) 1)
    by (rewrite !z_alpha_of_cases; reflexivity).
  split; [exact Hz|split; [reflexivity|]].
  rewrite !get_sample_estimate_cases, Hz. reflexivity.
Qed.

(** C10: for a continuous variable the estimate does not depend on [p1]:
    with the other arguments fixed, any two values of [p1] give the same
    result ([p2 = p1 + mde] is computed and not used). *)
Theorem continuous_ignores_p1
    (ndtri : float -> float) (npy_pow : float -> float -> float)
    (sig power mde p1 p1' : float)
    (sigma1 : option float) (tail : Z) :
  get_sample_estimate ndtri npy_pow sig power mde p1 sigma1 "continuous" tail
  = get_sample_estimate ndtri npy_pow sig power mde p1' sigma1 "continuous" tail.
Proof.
  rewrite !get_sample_estimate_cases.
  destruct (z_alpha_of ndtri sig tail) as [z_alpha|e]; [|reflexivity].
  change (String.eqb "continuous" "binomial") with false.
  change (String.eqb "continuous" "continuous") with true.
  cbv iota. reflexivity.
Qed.

Local Close Scope float_scope.

(** * Drawing samples *)

Section SamplingFacts.

Context {rng : Type}.
Variable random_uniform : float -> float -> rng -> float * rng.

Lemma draw_sample_spec p s :
  draw_sample random_uniform p s =
  (bernoulli p (fst (random_uniform 0 1 s)), snd (random_uniform 0 1 s)).
Proof. unfold draw_sample, bernoulli. destruct (random_uniform 0 1 s); reflexivity. Qed.

(** The loop appends one outcome per draw to the list it was handed. *)
Lemma draw_loop_spec k p : forall o s,
  draw_loop random_uniform k p o s =
  (o ++ map (bernoulli p) (uniform_draws random_uniform k s),
   rng_after random_uniform k s).
Proof.
  induction k as [|k IH]; intros o s; simpl.
  - rewrite app_nil_r. reflexivity.
  - rewrite draw_sample_spec.
    destruct (random_uniform 0 1 s) as [u s'] eqn:E. simpl.
    rewrite IH, <- app_assoc. reflexivity.
Qed.

Lemma draw_samples_eq p n s :
  draw_samples random_uniform p n s =
  (map (bernoulli p) (uniform_draws random_uniform (Z.to_nat n) s),
   rng_after random_uniform (Z.to_nat n) s).
Proof. unfold draw_samples. rewrite draw_loop_spec. reflexivity. Qed.

Lemma uniform_draws_length k : forall s,
  length (uniform_draws random_uniform k s) = k.
Proof.
  induction k as [|k IH]; intros s; simpl; [reflexivity|].
  destruct (random_uniform 0 1 s). simpl. rewrite IH. reflexivity.
Qed.

(** A property of every value drawn holds of the first [k] draws. *)
Lemma uniform_draws_Forall (P : float -> Prop) :
  (forall s, P (fst (random_uniform 0 1 s))) ->
  forall k s, Forall P (uniform_draws random_uniform k s).
Proof.
  intros HP. induction k as [|k IH]; intros s; simpl; [constructor|].
  specialize (HP s). destruct (random_uniform 0 1 s) as [u s']. simpl in HP.
  constructor; auto.
Qed.

(** Draws that all give the outcome [x] give [k] times [x]. *)
Lemma constant_outcomes p x k s :
  Forall (fun u => bernoulli p u = x) (uniform_draws random_uniform k s) ->
  map (bernoulli p) (uniform_draws random_uniform k s) = repeat x k.
Proof.
  intros HF. rewrite <- (uniform_draws_length k s) at 2.
  induction HF as [|u l Hu _ IH]; simpl; [reflexivity|].
  rewrite Hu, IH. reflexivity.
Qed.

End SamplingFacts.

(** C4: [draw_samples(p, n)] returns one value per draw of
    [random.uniform(0, 1.0)], in order: 1 when the value drawn is [<= p] and
    0 otherwise; it makes [n] draws, so the sequence has exactly [n] values
    for [n >= 0], and none for [n = 0]. *)
Theorem draw_samples_spec
    {rng : Type} (random_uniform : float -> float -> rng -> float * rng)
    (p : float) (n : Z) (s : rng) :
  draw_samples random_uniform p n s =
    (map (bernoulli p) (uniform_draws random_uniform (Z.to_nat n) s),
     rng_after random_uniform (Z.to_nat n) s)
  /\ length (fst (draw_samples random_uniform p n s)) = Z.to_nat n
  /\ (0 <= n -> Z.of_nat (length (fst (draw_samples random_uniform p n s))) = n)
  /\ (n = 0 -> fst (draw_samples random_uniform p n s) = []).
Proof.
  pose proof (draw_samples_eq random_uniform p n s) as E.
  assert (L : length (fst (draw_samples random_uniform p n s)) = Z.to_nat n).
  { rewrite E. simpl. rewrite length_map, uniform_draws_length. reflexivity. }
  repeat split; auto.
  - intros Hn. rewrite L. apply Z2Nat.id. assumption.
  - intros ->. rewrite E. reflexivity.
Qed.

Lemma draw_samples_spec_witness :
  fst (draw_samples (constant_uniform 0.5) 0.04 3 tt) = [0; 0; 0]
  /\ Z.of_nat (length (fst (draw_samples (constant_uniform 0.5) 0.04 3 tt))) = 3
  /\ fst (draw_samples (constant_uniform 0.5) 0.04 0 tt) = [].
Proof.
  pose proof (draw_samples_spec (constant_uniform 0.5) 0.04 3 tt) as H3.
  pose proof (draw_samples_spec (constant_uniform 0.5) 0.04 0 tt) as H0.
  split; [|split].
  - rewrite (proj1 H3). reflexivity.
  - apply (proj1 (proj2 (proj2 H3))). lia.
  - apply (proj2 (proj2 (proj2 H0))). reflexivity.
Defined.

(** C5 (as amended): for every [n >= 0], [draw_samples(1, n)] is [n] ones
    when every value drawn is below 1, as the values of
    [random.uniform(0, 1.0)] are, and [draw_samples(0, n)] is [n] zeros when
    every value drawn is above 0.  The comparison being inclusive, a first
    draw of [0.0] makes the first outcome of [draw_samples(0, n)] a one. *)
Theorem draw_samples_extremes
    {rng : Type} (random_uniform : float -> float -> rng -> float * rng)
    (n : Z) (s : rng) :
  0 <= n ->
  ((forall s', (fst (random_uniform 0 1 s') <? 1)%float = true) ->
   fst (draw_samples random_uniform 1 n s) = repeat 1 (Z.to_nat n)
   /\ Z.of_nat (length (fst (draw_samples random_uniform 1 n s))) = n)
  /\
  ((forall s', (0 <? fst (random_uniform 0 1 s'))%float = true) ->
   fst (draw_samples random_uniform 0 n s) = repeat 0 (Z.to_nat n)
   /\ Z.of_nat (length (fst (draw_samples random_uniform 0 n s))) = n)
  /\
  (0 < n -> (fst (random_uniform 0 1 s) =? 0)%float = true ->
   exists rest, fst (draw_samples random_uniform 0 n s) = 1 :: rest).
Proof.
  intros Hn. rewrite !draw_samples_eq. simpl fst.
  assert (L : forall x : Z, Z.of_nat (length (repeat x (Z.to_nat n))) = n)
    by (intros x; rewrite repeat_length; apply Z2Nat.id; assumption).
  split; [|split].
  - intros Hlt.
    rewrite (constant_outcomes random_uniform 1 1); [split; [reflexivity|apply L]|].
    apply (uniform_draws_Forall random_uniform (fun u => bernoulli 1 u = 1)).
    intros s'. unfold bernoulli. rewrite (ltb_leb _ _ (Hlt s')). reflexivity.
  - intros Hgt.
    rewrite (constant_outcomes random_uniform 0 0); [split; [reflexivity|apply L]|].
    apply (uniform_draws_Forall random_uniform (fun u => bernoulli 0 u = 0)).
    intros s'. unfold bernoulli. rewrite (ltb_not_leb _ _ (Hgt s')). reflexivity.
  - intros Hpos Hu.
    destruct (Z.to_nat n) as [|k] eqn:Ek; [lia|]. simpl uniform_draws.
    destruct (random_uniform 0%float 1%float s) as [u s1].
    simpl in Hu. simpl map.
    unfold bernoulli at 1. rewrite (eqb_leb _ _ Hu). eexists. reflexivity.
Qed.

Lemma draw_samples_extremes_witness :
  fst (draw_samples (constant_uniform 0.5) 1 4 tt) = [1; 1; 1; 1]
  /\ fst (draw_samples (constant_uniform 0.5) 0 4 tt) = [0; 0; 0; 0]
  /\ exists rest, fst (draw_samples (constant_uniform 0) 0 4 tt) = 1 :: rest.
Proof.
  pose proof (draw_samples_extremes (constant_uniform 0.5) 4 tt ltac:(lia))
    as (H1 & H0 & _).
  pose proof (draw_samples_extremes (constant_uniform 0) 4 tt ltac:(lia))
    as (_ & _ & Hb).
  split; [|split].
  - exact (proj1 (H1 (fun _ => eq_refl))).
  - exact (proj1 (H0 (fun _ => eq_refl))).
  - apply Hb; [lia|reflexivity].
Defined.

(** C5, as stated, fails: a draw of exactly [0.0], which
    [random.uniform(0, 1.0)] can return, satisfies [0.0 <= 0], and so
    [draw_samples(0, 1)] returns a one. *)
Lemma draw_samples_zero_boundary :
  draw_samples (constant_uniform 0) 0 1 tt = ([1], tt).
Proof. reflexivity. Qed.

(** With every draw below 1, [draw_samples(1, n)] is [n] ones. *)
Theorem draw_samples_one
    {rng : Type} (random_uniform : float -> float -> rng -> float * rng)
    (n : Z) (s : rng) :
  (forall s', (fst (random_uniform 0 1 s') <? 1)%float = true) ->
  fst (draw_samples random_uniform 1 n s) = repeat 1 (Z.to_nat n).
Proof.
  intros Hlt. rewrite draw_samples_eq. simpl.
  apply constant_outcomes.
  apply (uniform_draws_Forall random_uniform
           (fun u => bernoulli 1 u = 1)).
  intros s'. unfold bernoulli. rewrite (ltb_leb _ _ (Hlt s')). reflexivity.
Qed.

Lemma draw_samples_one_witness :
  fst (draw_samples (constant_uniform 0.5) 1 4 tt) = [1; 1; 1; 1].
Proof.
  exact (draw_samples_one (constant_uniform 0.5) 4 tt (fun _ => eq_refl)).
Defined.

(** With every draw above 0, [draw_samples(0, n)] is [n] zeros. *)
Theorem draw_samples_zero
    {rng : Type} (random_uniform : float -> float -> rng -> float * rng)
    (n : Z) (s : rng) :
  (forall s', (0 <? fst (random_uniform 0 1 s'))%float = true) ->
  fst (draw_samples random_uniform 0 n s) = repeat 0 (Z.to_nat n).
Proof.
  intros Hlt. rewrite draw_samples_eq. simpl.
  apply constant_outcomes.
  apply (uniform_draws_Forall random_uniform
           (fun u => bernoulli 0 u = 0)).
  intros s'. unfold bernoulli. rewrite (ltb_not_leb _ _ (Hlt s')). reflexivity.
Qed.

Lemma draw_samples_zero_witness :
  fst (draw_samples (constant_uniform 0.5) 0 4 tt) = [0; 0; 0; 0].
Proof.
  exact (draw_samples_zero (constant_uniform 0.5) 4 tt (fun _ => eq_refl)).
Defined.

(** * The significance test *)

(** The significance cell hands [st.chisquare] two vectors of two counts
    each: nothing is broadcast, and there is one degree of freedom. *)
Lemma significance_test_cases chdtrc test_group control_group :
  significance_test chdtrc test_group control_group =
  let o0 := Numpy.float64 (count 0 test_group) in
  let o1 := Numpy.float64 (count 1 test_group) in
  let e0 := Numpy.float64 (count 0 control_group) in
  let e1 := Numpy.float64 (count 1 control_group) in
  if sums_differ [o0; o1] [e0; e1] then Raise ValueError
  else
    let statistic :=
      (Numpy.square (o0 - e0) / e0 + Numpy.square (o1 - e1) / e1)%float in
    Ok (statistic, Scipy.chi2_sf chdtrc statistic 1).
Proof. reflexivity. Qed.

(** * The power estimate *)

Lemma power_lambda_cases test_group control_group :
  power_lambda test_group control_group =
  (r0 <- PyInt.truediv ((count 0 test_group - count 0 control_group) ^ 2)
                       (count 0 control_group) ;;
   r1 <- PyInt.truediv ((count 1 test_group - count 1 control_group) ^ 2)
                       (count 1 control_group) ;;
   Ok (PyInt.sum [r0; r1] * 5000)%float).
Proof.
  unfold power_lambda. cbn [r_int_loop].
  destruct (PyInt.truediv _ (count 0 control_group)) as [r0|e]; [|reflexivity].
  cbn [bind app].
  destruct (PyInt.truediv _ (count 1 control_group)) as [r1|e]; reflexivity.
Qed.

(** A quotient of counts of lists that Python can hold does not overflow. *)
Lemma count_truediv_ok i test_group control_group :
  Z.of_nat (length test_group) <= PyInt.sys_maxsize ->
  Z.of_nat (length control_group) <= PyInt.sys_maxsize ->
  count i control_group <> 0 ->
  PyInt.truediv ((count i test_group - count i control_group) ^ 2)
                (count i control_group)
  = Ok (PyInt.quotient ((count i test_group - count i control_group) ^ 2)
                       (count i control_group)).
Proof.
  intros Lt Lc He. apply PyInt_truediv_ok; [|assumption].
  pose proof (count_nonneg i test_group).
  pose proof (count_le_length i test_group).
  pose proof (count_nonneg i control_group).
  pose proof (count_le_length i control_group).
  apply squared_difference_bound; lia.
Qed.

(** With no zero expected count the power cell returns [st.chi2.cdf] at
    the sum of the two quotients times the literal 5000. *)
Lemma power_estimate_value chdtr test_group control_group :
  Z.of_nat (length test_group) <= PyInt.sys_maxsize ->
  Z.of_nat (length control_group) <= PyInt.sys_maxsize ->
  count 0 control_group <> 0 -> count 1 control_group <> 0 ->
  let r i := PyInt.quotient ((count i test_group - count i control_group) ^ 2)
                            (count i control_group) in
  power_estimate chdtr test_group control_group
  = Ok (Scipy.chi2_cdf chdtr (PyInt.sum [r 0%Z; r 1%Z] * 5000)%float 1).
Proof.
  intros Lt Lc H0 H1 r.
  unfold power_estimate. rewrite power_lambda_cases.
  rewrite !count_truediv_ok by assumption. reflexivity.
Qed.

(** C2 (as amended): for an observed group of 5000 outcomes, as the
    notebook draws them, and an expected group with no zero category
    count, the power estimate is [st.chi2.cdf], the CDF of the central
    chi-square distribution with 1 degree of freedom, at
    [lambda = n * sum_i (O_i - E_i)^2 / E_i], [n] being the length of the
    observed group. *)
Theorem power_estimate_formula
    (chdtr : Z -> float -> float) (test_group control_group : list Z) :
  Z.of_nat (length test_group) = 5000 ->
  Z.of_nat (length control_group) <= PyInt.sys_maxsize ->
  count 0 control_group <> 0 -> count 1 control_group <> 0 ->
  power_estimate chdtr test_group control_group
  = Ok (Scipy.chi2_cdf chdtr (spec_power_lambda test_group control_group) 1).
Proof.
  intros Hn Lc H0 H1.
  rewrite power_estimate_value; try assumption.
  - unfold spec_power_lambda. rewrite Hn.
    change (PyInt.to_float 5000) with 5000%float.
    rewrite float_mul_comm. reflexivity.
  - rewrite Hn. vm_compute. discriminate.
Qed.

Lemma power_estimate_formula_witness :
  power_estimate chdtr_table (outcomes 4711 289) (outcomes 4788 212)
  = Ok 1%float.
Proof.
  refine (power_estimate_formula chdtr_table
            (outcomes 4711 289) (outcomes 4788 212) _ _ _ _);
    vm_compute; (reflexivity || discriminate).
Defined.

(** C2, as stated, fails: on the notebook's own groups the code returns the
    central CDF at [lambda], which is 1.0, where the CDF of the noncentral
    distribution with 1 degree of freedom and noncentrality [lambda],
    evaluated at [lambda], is 0.5. *)
Lemma power_estimate_not_noncentral :
  count 0 (outcomes 4788 212) <> 0 /\ count 1 (outcomes 4788 212) <> 0
  /\ power_estimate chdtr_table (outcomes 4711 289) (outcomes 4788 212)
     = Ok 1%float
  /\ spec_power_estimate ncx2_cdf_table (outcomes 4711 289) (outcomes 4788 212)
     = 0.5%float
  /\ power_estimate chdtr_table (outcomes 4711 289) (outcomes 4788 212)
     <> Ok (spec_power_estimate ncx2_cdf_table
              (outcomes 4711 289) (outcomes 4788 212)).
Proof.
  split; [|split; [|split; [|split]]];
    try (vm_compute; discriminate); vm_compute; reflexivity.
Qed.

(** The factor is the literal 5000 and not the length of the observed
    group: for an observed group of 3 outcomes the argument of the CDF is
    [1.5 * 5000 = 7500], where [n * sum_i ...] is [3 * 1.5 = 4.5]. *)
Lemma power_lambda_fixed_factor :
  count 0 [0; 0; 1] <> 0 /\ count 1 [0; 0; 1] <> 0
  /\ power_lambda [0; 1; 1] [0; 0; 1] = Ok 7500%float
  /\ spec_power_lambda [0; 1; 1] [0; 0; 1] = 4.5%float
  /\ power_lambda [0; 1; 1] [0; 0; 1]
     <> Ok (spec_power_lambda [0; 1; 1] [0; 0; 1]).
Proof.
  split; [|split; [|split; [|split]]];
    try (vm_compute; discriminate); vm_compute; reflexivity.
Qed.

(** * The notebook's run *)

(** With the quantiles SciPy returns at 0.99 and 0.8, the call with
    [sig = 0.01], [power = 0.8], [mde = 0.01], [p1 = 0.04] and one tail
    squares 63.929631574279796; with the square the C library gives, it
    returns the number the notebook prints. *)
Theorem notebook_sample_size
    (ndtri : float -> float) (npy_pow : float -> float -> float) :
  ndtri 0.99%float = 2.3263478740408408%float ->
  ndtri 0.8%float = 0.8416212335729143%float ->
  get_sample_estimate ndtri npy_pow 0.01 0.8 0.01 0.04 None "binomial" 1
  = Ok (npy_pow 63.929631574279796 2)%float
  /\ (npy_pow 63.929631574279796 2 = 4086.9977932231523 ->
      get_sample_estimate ndtri npy_pow 0.01 0.8 0.01 0.04 None "binomial" 1
      = Ok 4086.9977932231523)%float.
Proof.
  intros Ha Hb.
  assert (E : get_sample_estimate ndtri npy_pow 0.01 0.8 0.01 0.04 None
                "binomial" 1 = Ok (npy_pow 63.929631574279796 2)%float).
  { unfold get_sample_estimate, z_alpha_of.
    cbn [Z.eqb Pos.eqb bind].
    change (Scipy.norm_ppf ndtri (1 - 0.01)) with (ndtri 0.99%float).
    change (Scipy.norm_ppf ndtri 0.8) with (ndtri 0.8%float).
    rewrite Ha, Hb. reflexivity. }
  split; [exact E|]. intros Hp. rewrite E, Hp. reflexivity.
Qed.

Lemma notebook_sample_size_witness :
  get_sample_estimate ndtri_table pow_table 0.01 0.8 0.01 0.04 None "binomial" 1
  = Ok 4086.9977932231523%float.
Proof.
  exact (proj2 (notebook_sample_size ndtri_table pow_table eq_refl eq_refl)
           eq_refl).
Defined.

(** On 5000 test outcomes with 289 ones and 5000 control outcomes with 212
    ones the statistic is the one the notebook shows, and the argument of
    [chi2.cdf] in the power cell is 5000 times it. *)
Theorem notebook_statistic (chdtrc : Z -> float -> float) :
  significance_test chdtrc (outcomes 4711 289) (outcomes 4788 212)
  = Ok (29.205285225642722%float,
        Scipy.chi2_sf chdtrc 29.205285225642722%float 1)
  /\ power_lambda (outcomes 4711 289) (outcomes 4788 212)
     = Ok 146026.42612821361%float.
Proof.
  split.
  - rewrite significance_test_cases. cbv zeta.
    destruct (count_outcomes 4711 289) as [-> ->].
    destruct (count_outcomes 4788 212) as [-> ->].
    reflexivity.
  - rewrite power_lambda_cases.
    destruct (count_outcomes 4711 289) as [-> ->].
    destruct (count_outcomes 4788 212) as [-> ->].
    reflexivity.
Qed.

(** * Signs *)

(** Rounding keeps the sign it is given. *)
Lemma binary_round_aux_sign sx m e l :
  0 <= m ->
  match binary_round_aux prec emax sx m e l with
  | S754_zero s | S754_infinity s | S754_finite s _ _ => s = sx
  | S754_nan => False
  end.
Proof.
  intros Hm. unfold binary_round_aux.
  pose proof (shr_fexp_nonneg m e l Hm) as H1.
  destruct (shr_fexp prec emax m e l) as [mrs' e']. simpl in H1.
  pose proof (round_nearest_even_le (shr_m mrs') (loc_of_shr_record mrs')) as Hr.
  assert (H2 : 0 <= round_nearest_even (shr_m mrs') (loc_of_shr_record mrs')) by lia.
  pose proof (shr_fexp_nonneg _ e' loc_Exact H2) as H3.
  destruct (shr_fexp prec emax _ e' loc_Exact) as [mrs'' e'']. simpl in H3.
  destruct (shr_m mrs'') as [|q|q]; try lia; try reflexivity.
  destruct (e'' <=? emax - prec); reflexivity.
Qed.

(** The sign passes through the rounding. *)
Lemma binary_round_aux_opp sx m e l :
  binary_round_aux prec emax (negb sx) m e l
  = SFopp (binary_round_aux prec emax sx m e l).
Proof.
  unfold binary_round_aux.
  destruct (shr_fexp prec emax m e l) as [mrs' e'].
  destruct (shr_fexp prec emax _ e' loc_Exact) as [mrs'' e''].
  destruct (shr_m mrs'') as [|q|q]; try reflexivity.
  destruct (e'' <=? emax - prec); reflexivity.
Qed.

Local Open Scope float_scope.

(** A square is never negative, and never a negative zero. *)
Lemma mul_self_not_negative x :
  SF_not_negative (Prim2SF (x * x)) = true.
Proof.
  rewrite mul_spec. unfold SF64mul.
  destruct (Prim2SF x) as [s|s| |s m e]; simpl; auto;
    try (destruct s; reflexivity).
  pose proof (binary_round_aux_sign (xorb s s) (Zpos (m * m)) (e + e) loc_Exact
                ltac:(lia)) as H.
  rewrite xorb_nilpotent in *.
  destruct (binary_round_aux prec emax false (Zpos (m * m)) (e + e) loc_Exact);
    try contradiction; subst; auto.
Qed.

Lemma not_negative_ltb v :
  SF_not_negative (Prim2SF v) = true -> (v <? 0) = false.
Proof.
  rewrite ltb_spec, Prim2SF_zero. unfold SFltb.
  destruct (Prim2SF v) as [s|s| |s m e]; intros H; try discriminate;
    try reflexivity; destruct s; try discriminate; reflexivity.
Qed.


Lemma SF_nonneg_leb v :
  SF_nonneg (Prim2SF v) = true -> (0 <=? v) = true.
Proof.
  rewrite leb_spec, Prim2SF_zero. unfold SFleb.
  destruct (Prim2SF v) as [s|s| |s m e]; intros H; try discriminate;
    try reflexivity; destruct s; try discriminate; reflexivity.
Qed.

Lemma opp_involutive x : - - x = x.
Proof.
  apply Prim2SF_inj. rewrite !opp_spec.
  destruct (Prim2SF x) as [s|s| |s m e]; simpl; rewrite ?negb_involutive; reflexivity.
Qed.

Lemma div_opp_l a b : (- a) / b = - (a / b).
Proof.
  apply Prim2SF_inj. rewrite opp_spec, !div_spec, opp_spec. unfold SF64div.
  destruct (Prim2SF a) as [sa|sa| |sa ma ea], (Prim2SF b) as [sb|sb| |sb mb eb];
    simpl; try reflexivity; try (destruct sa, sb; reflexivity).
  destruct (SFdiv_core_binary prec emax (Zpos ma) ea (Zpos mb) eb) as [[mz ez] lz].
  rewrite <- binary_round_aux_opp. f_equal. destruct sa, sb; reflexivity.
Qed.

Lemma div_opp_r a b : a / (- b) = - (a / b).
Proof.
  apply Prim2SF_inj. rewrite opp_spec, !div_spec, opp_spec. unfold SF64div.
  destruct (Prim2SF a) as [sa|sa| |sa ma ea], (Prim2SF b) as [sb|sb| |sb mb eb];
    simpl; try reflexivity; try (destruct sa, sb; reflexivity).
  destruct (SFdiv_core_binary prec emax (Zpos ma) ea (Zpos mb) eb) as [[mz ez] lz].
  rewrite <- binary_round_aux_opp. f_equal. destruct sa, sb; reflexivity.
Qed.

Lemma mul_self_opp x : (- x) * (- x) = x * x.
Proof.
  apply Prim2SF_inj. rewrite !mul_spec, opp_spec.
  destruct (Prim2SF x) as [s|s| |s m e]; simpl; try reflexivity;
    destruct s; reflexivity.
Qed.

Lemma eqb_zero_opp x : (- x =? 0) = (x =? 0).
Proof.
  rewrite !eqb_spec, opp_spec, Prim2SF_zero. unfold SFeqb.
  destruct (Prim2SF x) as [s|s| |s m e]; simpl; try reflexivity;
    destruct s; reflexivity.
Qed.

(** ** The order of the floats *)

Lemma SFleb_trans x y z :
  SFleb x y = true -> SFleb y z = true -> SFleb x z = true.
Proof.
  unfold SFleb.
  destruct x as [sx|sx| |sx mx ex], y as [sy|sy| |sy my ey],
           z as [sz|sz| |sz mz ez]; simpl;
    try destruct sx; try destruct sy; try destruct sz; simpl;
    try congruence;
    change (Pos.compare_cont Eq mx my) with (mx ?= my)%positive;
    change (Pos.compare_cont Eq my mz) with (my ?= mz)%positive;
    change (Pos.compare_cont Eq mx mz) with (mx ?= mz)%positive;
    destruct (Z.compare_spec ex ey), (Z.compare_spec ey ez),
             (Z.compare_spec ex ez); try congruence; try lia;
    destruct (Pos.compare_spec mx my), (Pos.compare_spec my mz),
             (Pos.compare_spec mx mz); simpl; try congruence; try lia.
Qed.

Lemma leb_trans u v w :
  (u <=? v) = true -> (v <=? w) = true -> (u <=? w) = true.
Proof. rewrite !leb_spec. apply SFleb_trans. Qed.

Lemma leb_nan_r u : (u <=? nan) = false.
Proof.
  rewrite leb_spec. change (Prim2SF nan) with S754_nan. unfold SFleb.
  destruct (Prim2SF u); reflexivity.
Qed.

Local Close Scope float_scope.

Local Open Scope float_scope.

(** * Sample size estimation: the value returned

    The value is what the C library's [pow] returns for the exponent 2.
    The properties below hold for every [pow] that has, at that exponent,
    the property named with each; C11 (F.10.4.4) fixes [pow] on zeros,
    infinities and NaN, and no [pow] gives a square a sign. *)







(** X6: in the continuous case the signs of [mde] and of [sigma1] do not
    matter: the estimate for [-mde], and the one for [-sigma1], is the one
    for [mde] and [sigma1], errors included, [pow(-x, 2.0)] being
    [pow(x, 2.0)]. *)
Theorem continuous_sign_symmetry
    (ndtri : float -> float) (npy_pow : float -> float -> float)
    (sig power mde p1 : float)
    (sigma1 : option float) (tail : Z) :
  (forall x, npy_pow (- x) 2 = npy_pow x 2) ->
  get_sample_estimate ndtri npy_pow sig power (- mde) p1 sigma1 "continuous" tail
  = get_sample_estimate ndtri npy_pow sig power mde p1 sigma1 "continuous" tail
  /\ get_sample_estimate ndtri npy_pow sig power mde p1 (option_map opp sigma1)
       "continuous" tail
     = get_sample_estimate ndtri npy_pow sig power mde p1 sigma1 "continuous" tail.
Proof.
  intros Hpow. rewrite !get_sample_estimate_cases.
  destruct (z_alpha_of ndtri sig tail) as [z|e]; [|split; reflexivity].
  change (String.eqb "continuous" "binomial") with false.
  change (String.eqb "continuous" "continuous") with true. cbv iota.
  destruct sigma1 as [sigma|]; [|split; reflexivity]. simpl option_map.
  cbv iota beta. rewrite eqb_zero_opp.
  destruct (sigma =? 0); [split; reflexivity|].
  rewrite div_opp_l, !div_opp_r, !Hpow. split; reflexivity.
Qed.

Lemma continuous_sign_symmetry_witness :
  get_sample_estimate ndtri_table pow_rounded 0.01 0.8 (-0.01) 0.04 (Some 0.2)
    "continuous" 1
  = get_sample_estimate ndtri_table pow_rounded 0.01 0.8 0.01 0.04 (Some 0.2)
      "continuous" 1
  /\ get_sample_estimate ndtri_table pow_rounded 0.01 0.8 0.01 0.04 (Some (-0.2))
       "continuous" 1
     = get_sample_estimate ndtri_table pow_rounded 0.01 0.8 0.01 0.04 (Some 0.2)
         "continuous" 1.
Proof.
  apply (continuous_sign_symmetry ndtri_table pow_rounded
           0.01 0.8 0.01 0.04 (Some 0.2) 1).
  intros x. apply mul_self_opp.
Defined.

(** ** A zero [mde] *)

Lemma eqb_zero_spec x :
  (x =? 0) = match Prim2SF x with S754_zero _ => true | _ => false end.
Proof.
  rewrite eqb_spec, Prim2SF_zero. unfold SFeqb.
  destruct (Prim2SF x) as [s|s| |s m e]; try reflexivity; destruct s; reflexivity.
Qed.

(** Nothing divided by a zero is finite. *)
Lemma div_zero_not_finite x d :
  (d =? 0) = true \/ is_nan d = true -> is_finite (x / d) = false.
Proof.
  rewrite eqb_zero_spec, is_nan_spec, is_finite_spec, div_spec.
  destruct (Prim2SF d) as [s|s| |s m e]; intros [H|H]; try discriminate;
    destruct (Prim2SF x) as [sx|sx| |sx mx ex]; reflexivity.
Qed.

Lemma mul_self_not_finite x : is_finite x = false -> is_finite (x * x) = false.
Proof.
  rewrite !is_finite_spec, mul_spec.
  destruct (Prim2SF x) as [s|s| |s m e]; try discriminate; reflexivity.
Qed.

(** Adding a zero changes no sign of a product with the complement. *)
Lemma add_zero_radicand p1 mde :
  (mde =? 0) = true ->
  (p1 * (1 - p1) <? 0) = false ->
  ((p1 + mde) * (1 - (p1 + mde)) <? 0) = false.
Proof.
  rewrite eqb_zero_spec. intros Hz.
  assert (E : p1 + mde = p1 \/ (p1 =? 0) = true /\ (p1 + mde =? 0) = true).
  { rewrite !eqb_zero_spec, add_spec.
    destruct (Prim2SF mde) as [s|s| |s m e] eqn:Em; try discriminate.
    destruct (Prim2SF p1) as [s1|s1| |s1 m1 e1] eqn:Ep.
    - right. split; [reflexivity|]. destruct s1, s; reflexivity.
    - left. apply Prim2SF_inj. rewrite add_spec, Em, Ep. reflexivity.
    - left. apply Prim2SF_inj. rewrite add_spec, Em, Ep. reflexivity.
    - left. apply Prim2SF_inj. rewrite add_spec, Em, Ep. reflexivity. }
  destruct E as [->|[_ E]]; [auto|]. intros _.
  revert E. rewrite eqb_zero_spec, ltb_spec, mul_spec, sub_spec, Prim2SF_zero.
  change (Prim2SF 1) with (S754_finite false 4503599627370496 (-52)).
  destruct (Prim2SF (p1 + mde)) as [s|s| |s m e]; try discriminate.
  intros _. destruct s; reflexivity.
Qed.

(** X7: a zero [mde] is not rejected.  With valid [tail], the binomial
    estimate (for [p1 * (1 - p1)] not negative) and the continuous one (for
    [sigma1] not zero) are returned, and are [inf] or [nan], [pow(x, 2.0)]
    being so for every [x] that is. *)
Theorem zero_mde_not_finite
    (ndtri : float -> float) (npy_pow : float -> float -> float)
    (sig power mde p1 : float) (tail : Z) :
  (forall x, is_finite x = false -> is_finite (npy_pow x 2) = false) ->
  (mde =? 0) = true ->
  tail = 1%Z \/ tail = 2%Z ->
  ((p1 * (1 - p1) <? 0) = false ->
   forall sigma1, exists v,
     get_sample_estimate ndtri npy_pow sig power mde p1 sigma1 "binomial" tail = Ok v
     /\ is_finite v = false)
  /\
  (forall sigma, (sigma =? 0) = false -> exists v,
     get_sample_estimate ndtri npy_pow sig power mde p1 (Some sigma) "continuous" tail
     = Ok v
     /\ is_finite v = false).
Proof.
  intros Hpow Hz Ht.
  assert (Hza : exists z, z_alpha_of ndtri sig tail = Ok z).
  { rewrite z_alpha_of_cases. destruct Ht as [->| ->]; eexists; reflexivity. }
  destruct Hza as [z Hza]. split.
  - intros Hp sigma1. rewrite get_sample_estimate_cases, Hza.
    change (String.eqb "binomial" "binomial") with true. cbv iota.
    rewrite Hp, (add_zero_radicand p1 mde Hz Hp). simpl orb. cbv iota.
    eexists. split; [reflexivity|]. apply Hpow, div_zero_not_finite. auto.
  - intros sigma Hs. rewrite get_sample_estimate_cases, Hza.
    change (String.eqb "continuous" "binomial") with false.
    change (String.eqb "continuous" "continuous") with true. cbv iota.
    rewrite Hs. eexists. split; [reflexivity|]. apply Hpow, div_zero_not_finite.
    revert Hz Hs. rewrite !eqb_zero_spec, is_nan_spec, div_spec.
    destruct (Prim2SF mde) as [s|s| |s m e]; try discriminate.
    destruct (Prim2SF sigma) as [s'|s'| |s' m' e']; try discriminate; simpl; auto.
Qed.

Lemma zero_mde_not_finite_witness :
  (exists v,
     get_sample_estimate ndtri_table pow_rounded 0.01 0.8 0 0.04 None "binomial" 1
     = Ok v
     /\ is_finite v = false)
  /\ (exists v,
     get_sample_estimate ndtri_table pow_rounded 0.01 0.8 0 0.04 (Some 0.2)
       "continuous" 1
     = Ok v
     /\ is_finite v = false).
Proof.
  pose proof (zero_mde_not_finite ndtri_table pow_rounded 0.01 0.8 0 0.04 1
                (fun x => mul_self_not_finite x)
                eq_refl (or_introl eq_refl)) as [Hb Hc].
  split; [exact (Hb eq_refl None)|exact (Hc 0.2 eq_refl)].
Defined.

Local Close Scope float_scope.

(** * Outcome sequences *)

Lemma bernoulli_binary p u : bernoulli p u = 0 \/ bernoulli p u = 1.
Proof. unfold bernoulli. destruct (u <=? p)%float; auto. Qed.

Lemma map_bernoulli_binary p l : binary (map (bernoulli p) l).
Proof.
  unfold binary. apply Forall_forall. intros v Hv.
  apply in_map_iff in Hv. destruct Hv as (u & <- & _). apply bernoulli_binary.
Qed.

Lemma count_cons i v g :
  count i (v :: g) = (if v =? i then 1 else 0) + count i g.
Proof. unfold count. simpl. destruct (v =? i); simpl length; lia. Qed.

(** In an outcome sequence the zeros and the ones are all there is. *)
Lemma binary_counts g :
  binary g -> count 0 g + count 1 g = Z.of_nat (length g).
Proof.
  induction 1 as [|v g Hv _ IH]; [reflexivity|].
  rewrite !count_cons. simpl length. rewrite Nat2Z.inj_succ.
  destruct Hv as [-> | ->]; cbn [Z.eqb Pos.eqb]; lia.
Qed.

Lemma int_sum_cons v g : int_sum (v :: g) = v + int_sum g.
Proof.
  unfold int_sum. simpl.
  assert (H : forall l a, fold_left Z.add l a = a + fold_left Z.add l 0).
  { induction l as [|x l IH]; intros a; simpl; [lia|].
    rewrite (IH (a + x)), (IH x). lia. }
  apply H.
Qed.

Lemma binary_outcomes zeros ones : binary (outcomes zeros ones).
Proof.
  unfold binary, outcomes. apply Forall_app. split; apply Forall_forall;
    intros v Hv; apply repeat_spec in Hv; auto.
Qed.

(** The sum of an outcome sequence is the number of its ones. *)
Lemma binary_int_sum g : binary g -> int_sum g = count 1 g.
Proof.
  induction 1 as [|v g Hv _ IH]; [reflexivity|].
  rewrite int_sum_cons, count_cons, IH. destruct Hv as [-> | ->]; reflexivity.
Qed.

Section SamplingMore.

Context {rng : Type}.
Variable random_uniform : float -> float -> rng -> float * rng.

Lemma uniform_draws_app a : forall b s,
  uniform_draws random_uniform (a + b) s
  = uniform_draws random_uniform a s
    ++ uniform_draws random_uniform b (rng_after random_uniform a s).
Proof.
  induction a as [|a IH]; intros b s; simpl; [reflexivity|].
  destruct (random_uniform 0 1 s) as [u s']. simpl. rewrite IH. reflexivity.
Qed.

Lemma rng_after_app a : forall b s,
  rng_after random_uniform (a + b) s
  = rng_after random_uniform b (rng_after random_uniform a s).
Proof. induction a as [|a IH]; intros b s; simpl; [reflexivity|apply IH]. Qed.

End SamplingMore.

Lemma leb_nan p u : is_nan p = true -> (u <=? p)%float = false.
Proof.
  rewrite is_nan_spec, leb_spec. unfold SFleb.
  destruct (Prim2SF p); try discriminate. intros _.
  destruct (Prim2SF u); reflexivity.
Qed.

(** A larger [p] turns no 1 into a 0. *)
Lemma bernoulli_mono p q u :
  (p <=? q)%float = true -> bernoulli p u <= bernoulli q u.
Proof.
  intros Hpq. unfold bernoulli.
  destruct (u <=? p)%float eqn:Hp; [rewrite (leb_trans u p q Hp Hpq)|];
    destruct (u <=? q)%float; lia.
Qed.

Lemma count_ones_mono p q l :
  (p <=? q)%float = true ->
  count 1 (map (bernoulli p) l) <= count 1 (map (bernoulli q) l).
Proof.
  intros Hpq. induction l as [|u l IH]; simpl map; [reflexivity|].
  rewrite !count_cons. pose proof (bernoulli_mono p q u Hpq) as H.
  destruct (bernoulli_binary p u) as [Ep|Ep], (bernoulli_binary q u) as [Eq|Eq];
    rewrite Ep, Eq in *; cbn [Z.eqb Pos.eqb]; lia.
Qed.

Lemma Forall2_map_bernoulli p q l :
  (p <=? q)%float = true ->
  Forall2 Z.le (map (bernoulli p) l) (map (bernoulli q) l).
Proof.
  intros Hpq. induction l as [|u l IH]; simpl; constructor; auto.
  apply bernoulli_mono. assumption.
Qed.

(** X8: whatever [p] and the generator, [draw_samples(p, n)] returns a
    sequence of 0s and 1s only, so its zeros and ones add up to its length
    and its sum is the number of its ones. *)
Theorem draw_samples_binary
    {rng : Type} (random_uniform : float -> float -> rng -> float * rng)
    (p : float) (n : Z) (s : rng) :
  let group := fst (draw_samples random_uniform p n s) in
  binary group
  /\ count 0 group + count 1 group = Z.max 0 n
  /\ int_sum group = count 1 group.
Proof.
  intros group. unfold group. rewrite draw_samples_eq. simpl fst.
  pose proof (map_bernoulli_binary p
                (uniform_draws random_uniform (Z.to_nat n) s)) as Hb.
  split; [assumption|]. split; [|apply binary_int_sum; assumption].
  rewrite (binary_counts _ Hb), length_map, uniform_draws_length. lia.
Qed.

(** X9: drawing [n + m] samples is drawing [n] and then [m]: the sequences
    concatenate and the generator ends in the same state. *)
Theorem draw_samples_app
    {rng : Type} (random_uniform : float -> float -> rng -> float * rng)
    (p : float) (n m : Z) (s : rng) :
  0 <= n -> 0 <= m ->
  let first := draw_samples random_uniform p n s in
  let second := draw_samples random_uniform p m (snd first) in
  draw_samples random_uniform p (n + m) s = (fst first ++ fst second, snd second).
Proof.
  intros Hn Hm first second. subst second first.
  rewrite !draw_samples_eq. simpl fst. simpl snd.
  rewrite Z2Nat.inj_add by assumption.
  rewrite uniform_draws_app, rng_after_app, map_app. reflexivity.
Qed.

Lemma draw_samples_app_witness :
  draw_samples (constant_uniform 0.5) 0.7 (2 + 1) tt = ([1; 1] ++ [1], tt).
Proof.
  apply (draw_samples_app (constant_uniform 0.5) 0.7 2 1 tt); lia.
Defined.

(** X10: on the same generator state a larger [p] gives, draw by draw, an
    outcome at least as large: no 1 becomes a 0, the number of ones does not
    decrease, and the generator ends in the same state. *)
Theorem draw_samples_monotone
    {rng : Type} (random_uniform : float -> float -> rng -> float * rng)
    (p q : float) (n : Z) (s : rng) :
  (p <=? q)%float = true ->
  Forall2 Z.le (fst (draw_samples random_uniform p n s))
               (fst (draw_samples random_uniform q n s))
  /\ count 1 (fst (draw_samples random_uniform p n s))
     <= count 1 (fst (draw_samples random_uniform q n s))
  /\ snd (draw_samples random_uniform p n s)
     = snd (draw_samples random_uniform q n s).
Proof.
  intros Hpq. rewrite !draw_samples_eq. simpl fst. simpl snd.
  split; [apply Forall2_map_bernoulli; assumption|].
  split; [apply count_ones_mono; assumption|reflexivity].
Qed.

Lemma draw_samples_monotone_witness :
  Forall2 Z.le (fst (draw_samples (constant_uniform 0.05) 0.04 3 tt))
               (fst (draw_samples (constant_uniform 0.05) 0.055 3 tt))
  /\ count 1 (fst (draw_samples (constant_uniform 0.05) 0.04 3 tt))
     <= count 1 (fst (draw_samples (constant_uniform 0.05) 0.055 3 tt))
  /\ snd (draw_samples (constant_uniform 0.05) 0.04 3 tt)
     = snd (draw_samples (constant_uniform 0.05) 0.055 3 tt).
Proof.
  apply (draw_samples_monotone (constant_uniform 0.05) 0.04 0.055 3 tt).
  reflexivity.
Defined.

(** X11: [p] is not validated.  With draws in [[0, 1)], a [p] below 0 or
    [nan] gives only zeros and a [p] of 1 or more gives only ones. *)
Theorem draw_samples_out_of_range
    {rng : Type} (random_uniform : float -> float -> rng -> float * rng)
    (p : float) (n : Z) (s : rng) :
  (forall s', (0 <=? fst (random_uniform 0 1 s'))%float = true
              /\ (fst (random_uniform 0 1 s') <? 1)%float = true) ->
  ((p <? 0)%float = true \/ is_nan p = true ->
   fst (draw_samples random_uniform p n s) = repeat 0 (Z.to_nat n))
  /\ ((1 <=? p)%float = true ->
      fst (draw_samples random_uniform p n s) = repeat 1 (Z.to_nat n)).
Proof.
  intros Hu. rewrite draw_samples_eq. simpl fst. split; intros Hp;
    apply constant_outcomes;
    apply (uniform_draws_Forall random_uniform
             (fun u => bernoulli p u = _)); intros s';
    destruct (Hu s') as [H0 H1]; unfold bernoulli.
  - destruct Hp as [Hp|Hp]; [|rewrite (leb_nan p _ Hp); reflexivity].
    destruct (_ <=? p)%float eqn:E; [|reflexivity].
    pose proof (leb_trans _ _ _ H0 E) as H.
    rewrite (ltb_not_leb _ _ Hp) in H. discriminate.
  - rewrite (leb_trans _ 1%float p (ltb_leb _ _ H1) Hp). reflexivity.
Qed.

Lemma draw_samples_out_of_range_witness :
  fst (draw_samples (constant_uniform 0.5) (-0.25) 3 tt) = [0; 0; 0]
  /\ fst (draw_samples (constant_uniform 0.5) 1.5 3 tt) = [1; 1; 1].
Proof.
  assert (Hu : forall s' : unit,
             (0 <=? fst (constant_uniform 0.5 0 1 s'))%float = true
             /\ (fst (constant_uniform 0.5 0 1 s') <? 1)%float = true)
    by (intros s'; split; reflexivity).
  split.
  - apply (proj1 (draw_samples_out_of_range (constant_uniform 0.5) (-0.25) 3 tt Hu)).
    left. reflexivity.
  - apply (proj2 (draw_samples_out_of_range (constant_uniform 0.5) 1.5 3 tt Hu)).
    reflexivity.
Defined.

(** * Signs of quotients and sums *)

Lemma binary_round_nonneg m e : SF_nonneg (binary_round prec emax false m e) = true.
Proof.
  unfold binary_round.
  destruct (shl_align m e (fexp prec emax (Zpos (digits2_pos m) + e))) as [mz ez].
  pose proof (binary_round_aux_sign false (Zpos mz) ez loc_Exact ltac:(lia)) as H.
  destruct (binary_round_aux prec emax false (Zpos mz) ez loc_Exact);
    try contradiction; subst; reflexivity.
Qed.

Lemma binary_normalize_nonneg z e :
  0 <= z -> SF_nonneg (binary_normalize prec emax z e false) = true.
Proof.
  intros Hz. destruct z as [|p|p]; try lia; [reflexivity|].
  apply binary_round_nonneg.
Qed.

(** The conversion to a primitive float keeps a clear sign bit. *)
Lemma SF2Prim_nonneg x :
  SF_nonneg x = true -> SF_nonneg (Prim2SF (SF2Prim x)) = true.
Proof.
  destruct x as [s|s| |s m e]; try destruct s; try discriminate; intros _;
    try reflexivity.
  unfold SF2Prim. rewrite Z_ldexp_spec, of_uint63_spec.
  pose proof (binary_normalize_nonneg
                (Uint63Axioms.to_Z (Uint63Axioms.of_Z (Zpos m))) 0
                (proj1 (Uint63.to_Z_bounded _))) as H.
  destruct (binary_normalize prec emax _ 0 false) as [s|s| |s m' e'];
    try destruct s; try discriminate; try reflexivity.
  apply binary_round_nonneg.
Qed.

Lemma SF2Prim_not_negative x :
  SF_not_negative x = true -> SF_not_negative (Prim2SF (SF2Prim x)) = true.
Proof.
  intros H.
  assert (Hx : x = S754_nan \/ SF_nonneg x = true)
    by (destruct x; auto).
  destruct Hx as [->|Hx]; [reflexivity|].
  apply SF2Prim_nonneg in Hx.
  destruct (Prim2SF (SF2Prim x)); auto.
Qed.

Lemma SFdiv_core_binary_nonneg m1 e1 m2 e2 :
  0 <= Z.pos m1 -> 0 <= fst (fst (SFdiv_core_binary prec emax (Zpos m1) e1 (Zpos m2) e2)).
Proof.
  intros _. unfold SFdiv_core_binary.
  match goal with
  | |- context [Z.div_eucl ?a ?b] =>
      pose proof (Z_div_mod a b eq_refl) as Hd;
      assert (Ha : 0 <= a);
      [|destruct (Z.div_eucl a b) as [q r]; simpl; nia]
  end.
  destruct (_ - _ - _); try apply Z.shiftl_nonneg; lia.
Qed.

(** A quotient of two numbers with clear sign bits has a clear sign bit, or
    is [nan]. *)
Lemma SFdiv_not_negative x y :
  SF_nonneg x = true -> SF_nonneg y = true ->
  SF_not_negative (SF64div x y) = true.
Proof.
  destruct x as [sx|sx| |sx mx ex], y as [sy|sy| |sy my ey];
    try destruct sx; try destruct sy; try discriminate; intros _ _;
    try reflexivity.
  unfold SF64div, SFdiv.
  pose proof (SFdiv_core_binary_nonneg mx ex my ey ltac:(lia)) as H.
  destruct (SFdiv_core_binary prec emax (Zpos mx) ex (Zpos my) ey) as [[mz ez] lz].
  simpl in H. simpl xorb.
  pose proof (binary_round_aux_sign false mz ez lz H) as Hs.
  destruct (binary_round_aux prec emax false mz ez lz); try contradiction;
    subst; reflexivity.
Qed.

Local Open Scope float_scope.

Lemma add_not_negative x y :
  SF_not_negative (Prim2SF x) = true -> SF_not_negative (Prim2SF y) = true ->
  SF_not_negative (Prim2SF (x + y)) = true.
Proof.
  rewrite add_spec. unfold SF64add.
  destruct (Prim2SF x) as [sx|sx| |sx mx ex], (Prim2SF y) as [sy|sy| |sy my ey];
    try destruct sx; try destruct sy; try discriminate; intros _ _;
    try reflexivity.
  unfold SFadd. simpl cond_Zopp.
  match goal with
  | |- context [binary_normalize _ _ ?z ?e false] =>
      pose proof (binary_normalize_nonneg z e ltac:(lia)) as H;
      destruct (binary_normalize prec emax z e false) as [s|s| |s m' e'];
      try destruct s; try discriminate; reflexivity
  end.
Qed.

Lemma mul_not_negative x y :
  SF_not_negative (Prim2SF x) = true -> SF_not_negative (Prim2SF y) = true ->
  SF_not_negative (Prim2SF (x * y)) = true.
Proof.
  rewrite mul_spec. unfold SF64mul.
  destruct (Prim2SF x) as [sx|sx| |sx mx ex], (Prim2SF y) as [sy|sy| |sy my ey];
    try destruct sx; try destruct sy; try discriminate; intros _ _;
    try reflexivity.
  unfold SFmul. simpl xorb.
  pose proof (binary_round_aux_sign false (Zpos (mx * my)) (ex + ey) loc_Exact
                ltac:(lia)) as H.
  destruct (binary_round_aux prec emax false (Zpos (mx * my)) (ex + ey) loc_Exact);
    try contradiction; subst; reflexivity.
Qed.

Local Close Scope float_scope.

Lemma Z2SF_nonneg a : 0 <= a -> SF_nonneg (PyInt.Z2SF a) = true.
Proof. destruct a; try lia; reflexivity. Qed.

(** A count as a float64 has a clear sign bit. *)
Lemma float64_nonneg z :
  0 <= z -> SF_nonneg (Prim2SF (Numpy.float64 z)) = true.
Proof.
  intros Hz. unfold Numpy.float64, Numpy.float64_of_int.
  apply SF2Prim_nonneg, binary_normalize_nonneg. assumption.
Qed.

(** A square divided by a number with a clear sign bit is not below zero. *)
Lemma pearson_term_not_negative x e :
  SF_nonneg (Prim2SF e) = true ->
  SF_not_negative (Prim2SF (Numpy.square x / e)%float) = true.
Proof.
  intros He. unfold Numpy.square. rewrite div_spec.
  pose proof (mul_self_not_negative x) as Hx.
  assert (Hn : Prim2SF (x * x)%float = S754_nan
               \/ SF_nonneg (Prim2SF (x * x)%float) = true)
    by (destruct (Prim2SF (x * x)%float); auto).
  destruct Hn as [-> |Hn]; [reflexivity|].
  apply SFdiv_not_negative; assumption.
Qed.

(** Python's quotient of a count by a positive count is not below zero, and
    is a number. *)
Lemma quotient_nonneg a b :
  0 <= a -> 0 < b -> SF_nonneg (Prim2SF (PyInt.quotient a b)) = true.
Proof.
  intros Ha Hb. unfold PyInt.quotient. apply SF2Prim_nonneg.
  pose proof (SFdiv_not_negative (PyInt.Z2SF a) (PyInt.Z2SF b)
                (Z2SF_nonneg a Ha) (Z2SF_nonneg b ltac:(lia))) as H.
  destruct a as [|a|a], b as [|b|b]; try lia; try reflexivity.
  simpl PyInt.Z2SF in *.
  destruct (SF64div _ _) eqn:E; auto.
  exfalso. revert E. unfold SF64div, SFdiv.
  destruct (SFdiv_core_binary prec emax (Zpos a) 0 (Zpos b) 0) as [[mz ez] lz] eqn:Ec.
  pose proof (SFdiv_core_binary_nonneg a 0 b 0 ltac:(lia)) as Hm.
  rewrite Ec in Hm. simpl in Hm.
  apply binary_round_aux_not_nan. assumption.
Qed.

Local Open Scope float_scope.

(** * The significance test: sign of the statistic *)

(** X12: the statistic of the significance test is never negative,
    whatever the two groups; so the p-value is 1.0 exactly at a zero
    statistic, comes from [chdtrc] for a positive finite one, and is 0.0 at
    [inf] and [nan] at [nan]. *)
Theorem statistic_not_negative
    (chdtrc : Z -> float -> float) (test_group control_group : list Z)
    (statistic pvalue : float) :
  significance_test chdtrc test_group control_group = Ok (statistic, pvalue) ->
  (statistic <? 0) = false
  /\ pvalue = (if is_nan statistic then nan
               else if statistic =? 0 then 1
               else if statistic <? infinity then chdtrc 1%Z statistic
               else 0).
Proof.
  rewrite significance_test_cases. cbv zeta.
  destruct (sums_differ _ _); [discriminate|]. intros [= <- <-].
  match goal with |- context [(?a + ?b <? 0)] => set (stat := a + b) end.
  assert (H : SF_not_negative (Prim2SF stat) = true).
  { apply add_not_negative; apply pearson_term_not_negative;
      apply float64_nonneg, count_nonneg. }
  split; [apply not_negative_ltb; assumption|].
  unfold Scipy.chi2_sf. simpl orb.
  revert H. rewrite is_nan_spec, leb_spec, eqb_spec, Prim2SF_zero.
  unfold SFleb, SFeqb.
  destruct (Prim2SF stat) as [s|s| |s m e]; try destruct s; try discriminate;
    reflexivity.
Qed.

Lemma statistic_not_negative_witness :
  (1.5 <? 0) = false
  /\ Scipy.chi2_sf chdtrc_table 1.5 1
     = (if is_nan 1.5 then nan
        else if 1.5 =? 0 then 1
        else if 1.5 <? infinity then chdtrc_table 1%Z 1.5
        else 0).
Proof.
  apply (statistic_not_negative chdtrc_table [0; 1; 1]%Z [0; 0; 1]%Z 1.5
           (Scipy.chi2_sf chdtrc_table 1.5 1)).
  reflexivity.
Defined.

Local Close Scope float_scope.

(** * The click-through rates *)

Lemma click_through_rate_nil : click_through_rate [] = Raise ZeroDivisionError.
Proof. reflexivity. Qed.

Lemma PyInt_truediv_nonzero a b e :
  b <> 0 -> PyInt.truediv a b = Raise e -> e = OverflowError.
Proof.
  intros Hb. unfold PyInt.truediv.
  destruct (Z.eqb_spec b 0); [contradiction|].
  destruct (SF64div _ _); congruence.
Qed.

(** The rate of an outcome sequence that Python can hold. *)
Lemma click_through_rate_binary group :
  binary group -> group <> [] ->
  Z.of_nat (length group) <= PyInt.sys_maxsize ->
  click_through_rate group
  = Ok (PyInt.quotient (count 1 group) (Z.of_nat (length group))).
Proof.
  intros Hb Hne Hlen. unfold click_through_rate.
  rewrite (binary_int_sum group Hb).
  apply PyInt_truediv_ok.
  - pose proof (count_nonneg 1 group). pose proof (count_le_length 1 group).
    assert (PyInt.sys_maxsize < 2 ^ 1023) by (unfold PyInt.sys_maxsize; apply Z.lt_trans with (2 ^ 63); [lia|apply Z.pow_lt_mono_r; lia]).
    lia.
  - destruct group; [congruence|simpl length; lia].
Qed.

(** X13: the click-through rate [sum(group) / len(group)] fails with a
    ZeroDivisionError exactly on the empty group; on an outcome sequence
    that is not empty it is the correctly rounded quotient of the number of
    ones by the length, and is not below zero. *)
Theorem click_through_rate_spec (group : list Z) :
  (click_through_rate group = Raise ZeroDivisionError <-> group = [])
  /\ (binary group -> group <> [] ->
      Z.of_nat (length group) <= PyInt.sys_maxsize ->
      let ctr := PyInt.quotient (count 1 group) (Z.of_nat (length group)) in
      click_through_rate group = Ok ctr /\ (0 <=? ctr)%float = true).
Proof.
  split.
  - split; [|intros ->; reflexivity].
    destruct group as [|v g]; [reflexivity|]. intros H.
    apply PyInt_truediv_nonzero in H; [discriminate|simpl length; lia].
  - intros Hb Hne Hlen ctr. split.
    + apply click_through_rate_binary; assumption.
    + apply SF_nonneg_leb, quotient_nonneg; [apply count_nonneg|].
      destruct group; [congruence|simpl length; lia].
Qed.

Lemma click_through_rate_spec_witness :
  click_through_rate (outcomes 4788 212) = Ok 0.0424%float
  /\ (0 <=? 0.0424)%float = true.
Proof.
  pose proof (proj2 (click_through_rate_spec (outcomes 4788 212))
                (binary_outcomes _ _)) as H.
  assert (Hne : outcomes 4788 212 <> []).
  { intros E. apply (f_equal (@length Z)) in E. vm_compute in E. discriminate. }
  assert (Hlen : Z.of_nat (length (outcomes 4788 212)) <= PyInt.sys_maxsize)
    by (vm_compute; discriminate).
  specialize (H Hne Hlen). vm_compute in H. exact H.
Defined.

(** * The power estimate of a group against itself *)

Local Open Scope float_scope.

(** X14: the power cell run on a group against itself, with both outcomes
    present, passes 0.0 to [chi2.cdf] and gives the power 0.0. *)
Theorem power_estimate_self (chdtr : Z -> float -> float) (group : list Z) :
  count 0 group <> 0%Z -> count 1 group <> 0%Z ->
  power_lambda group group = Ok 0
  /\ power_estimate chdtr group group = Ok 0.
Proof.
  intros H0 H1.
  assert (E : forall e, (0 < e)%Z -> PyInt.truediv ((e - e) ^ 2) e = Ok 0).
  { intros e He. rewrite Z.sub_diag. change (0 ^ 2)%Z with 0%Z.
    rewrite PyInt_truediv_ok by (try lia; apply Z.pow_pos_nonneg; lia).
    destruct e; try lia; reflexivity. }
  assert (L : power_lambda group group = Ok 0).
  { rewrite power_lambda_cases.
    rewrite !E by (pose proof (count_nonneg 0 group);
                   pose proof (count_nonneg 1 group); lia).
    reflexivity. }
  split; [exact L|]. unfold power_estimate. rewrite L. reflexivity.
Qed.

Lemma power_estimate_self_witness :
  power_lambda [0; 1; 1; 0; 0]%Z [0; 1; 1; 0; 0]%Z = Ok 0
  /\ power_estimate chdtr_table [0; 1; 1; 0; 0]%Z [0; 1; 1; 0; 0]%Z = Ok 0.
Proof.
  apply (power_estimate_self chdtr_table [0; 1; 1; 0; 0]%Z); discriminate.
Defined.

Local Close Scope float_scope.

(** * Shuffled groups *)

Lemma count_Permutation i g g' : Permutation g g' -> count i g = count i g'.
Proof.
  induction 1 as [|v g g' _ IH|v w g|g1 g2 g3 _ IH1 _ IH2];
    rewrite ?count_cons; try lia; reflexivity.
Qed.

Lemma int_sum_Permutation g g' : Permutation g g' -> int_sum g = int_sum g'.
Proof.
  induction 1 as [|v g g' _ IH|v w g|g1 g2 g3 _ IH1 _ IH2];
    rewrite ?int_sum_cons; try lia; reflexivity.
Qed.

(** X15: the order of the outcomes does not matter: shuffling either
    group changes neither the significance test, nor the power estimate,
    nor the click-through rates. *)
Theorem shuffle_invariance
    (chdtrc chdtr : Z -> float -> float)
    (test_group test_group' control_group control_group' : list Z) :
  Permutation test_group test_group' ->
  Permutation control_group control_group' ->
  significance_test chdtrc test_group control_group
  = significance_test chdtrc test_group' control_group'
  /\ power_estimate chdtr test_group control_group
     = power_estimate chdtr test_group' control_group'
  /\ ctr_cell control_group test_group = ctr_cell control_group' test_group'.
Proof.
  intros Ht Hc.
  rewrite !significance_test_cases. unfold power_estimate.
  rewrite !power_lambda_cases. unfold ctr_cell, click_through_rate.
  rewrite !(count_Permutation _ _ _ Ht), !(count_Permutation _ _ _ Hc).
  rewrite (int_sum_Permutation _ _ Ht), (int_sum_Permutation _ _ Hc).
  rewrite (Permutation_length Ht), (Permutation_length Hc).
  repeat split; reflexivity.
Qed.

Lemma shuffle_invariance_witness :
  significance_test chdtrc_table [0; 1; 1] [0; 0; 1]
  = significance_test chdtrc_table [1; 0; 1] [0; 1; 0]
  /\ power_estimate chdtr_table [0; 1; 1] [0; 0; 1]
     = power_estimate chdtr_table [1; 0; 1] [0; 1; 0]
  /\ ctr_cell [0; 0; 1] [0; 1; 1] = ctr_cell [0; 1; 0] [1; 0; 1].
Proof.
  apply (shuffle_invariance chdtrc_table chdtr_table
           [0; 1; 1] [1; 0; 1] [0; 0; 1] [0; 1; 0]).
  - apply perm_swap.
  - apply perm_skip, perm_swap.
Defined.

(** * The experiment of the notebook *)

Section ExperimentFacts.

Context {rng : Type}.
Variable random_uniform : float -> float -> rng -> float * rng.

Lemma draw_groups_eq s :
  draw_groups random_uniform s =
  (map (bernoulli 0.04) (uniform_draws random_uniform (Z.to_nat 5000) s),
   map (bernoulli 0.055)
     (uniform_draws random_uniform (Z.to_nat 5000)
        (rng_after random_uniform (Z.to_nat 5000) s)),
   rng_after random_uniform (Z.to_nat 5000)
     (rng_after random_uniform (Z.to_nat 5000) s)).
Proof. unfold draw_groups. rewrite !draw_samples_eq. reflexivity. Qed.

Lemma outcomes_5000 p s :
  let group := map (bernoulli p) (uniform_draws random_uniform (Z.to_nat 5000) s) in
  binary group /\ Z.of_nat (length group) = 5000 /\ group <> [].
Proof.
  intros group. assert (L : Z.of_nat (length group) = 5000).
  { unfold group. rewrite length_map, uniform_draws_length. apply Z2Nat.id. lia. }
  split; [apply map_bernoulli_binary|]. split; [exact L|].
  intros E. rewrite E in L. discriminate.
Qed.

End ExperimentFacts.

Lemma firstn_skipn_app {A : Type} (a b : list A) (n : nat) :
  length a = n -> firstn n (a ++ b) = a /\ skipn n (a ++ b) = b.
Proof.
  intros <-. split.
  - rewrite firstn_app, Nat.sub_diag, firstn_all, firstn_O, app_nil_r.
    reflexivity.
  - rewrite skipn_app, Nat.sub_diag, skipn_all. reflexivity.
Qed.

(** X16: the cell that draws the two groups takes them from consecutive
    stretches of one stream of draws: the control group from the first 5000
    values of [random.uniform(0, 1.0)] with [p = 0.04], the test group from
    the next 5000 with [p = 0.055]; both have 5000 outcomes and the
    generator has advanced by 10000 draws. *)
Theorem draw_groups_spec
    {rng : Type} (random_uniform : float -> float -> rng -> float * rng)
    (s : rng) :
  let draws := uniform_draws random_uniform (Z.to_nat 10000) s in
  let '(control_group, test_group, s') := draw_groups random_uniform s in
  control_group = map (bernoulli 0.04) (firstn (Z.to_nat 5000) draws)
  /\ test_group = map (bernoulli 0.055) (skipn (Z.to_nat 5000) draws)
  /\ s' = rng_after random_uniform (Z.to_nat 10000) s
  /\ Z.of_nat (length control_group) = 5000
  /\ Z.of_nat (length test_group) = 5000.
Proof.
  intros draws. rewrite draw_groups_eq.
  assert (E : Z.to_nat 10000 = (Z.to_nat 5000 + Z.to_nat 5000)%nat)
    by (rewrite <- Z2Nat.inj_add by lia; reflexivity).
  unfold draws. rewrite E, uniform_draws_app, rng_after_app.
  destruct (firstn_skipn_app
              (uniform_draws random_uniform (Z.to_nat 5000) s)
              (uniform_draws random_uniform (Z.to_nat 5000)
                 (rng_after random_uniform (Z.to_nat 5000) s))
              (Z.to_nat 5000) (uniform_draws_length _ _ _)) as [-> ->].
  repeat split;
    rewrite length_map, uniform_draws_length; apply Z2Nat.id; lia.
Qed.

(** X17: on the groups that cell draws, whatever the generator: the cell of
    the click-through rates does not fail and prints the rounded quotients
    of the numbers of ones by 5000, times 100; and the literal 5000 of the
    power cell is the length of the test group, so that the power cell
    passes [(sum_i r_i) * len(test_group)] to [chi2.cdf] when the control
    group has both outcomes, and fails with a ZeroDivisionError when it
    lacks one. *)
Theorem experiment_cells
    {rng : Type} (random_uniform : float -> float -> rng -> float * rng)
    (s : rng) (chdtr : Z -> float -> float) :
  let '(control_group, test_group, _) := draw_groups random_uniform s in
  let r i := PyInt.quotient ((count i test_group - count i control_group) ^ 2)
                            (count i control_group) in
  ctr_cell control_group test_group
  = Ok (PyInt.quotient (count 1 control_group) 5000 * 100,
        PyInt.quotient (count 1 test_group) 5000 * 100)%float
  /\ (count 0 control_group <> 0 -> count 1 control_group <> 0 ->
      power_lambda test_group control_group
      = Ok (PyInt.sum [r 0%Z; r 1%Z]
            * PyInt.to_float (Z.of_nat (length test_group)))%float)
  /\ (count 0 control_group = 0 \/ count 1 control_group = 0 ->
      power_estimate chdtr test_group control_group = Raise ZeroDivisionError).
Proof.
  rewrite draw_groups_eq.
  destruct (outcomes_5000 random_uniform 0.04 s) as (Bc & Lc & Nc).
  destruct (outcomes_5000 random_uniform 0.055
              (rng_after random_uniform (Z.to_nat 5000) s)) as (Bt & Lt & Nt).
  cbv zeta in Bc, Lc, Nc, Bt, Lt, Nt.
  set (control_group := map (bernoulli 0.04) _) in *.
  set (test_group := map (bernoulli 0.055) _) in *.
  assert (Mc : Z.of_nat (length control_group) <= PyInt.sys_maxsize)
    by (rewrite Lc; vm_compute; discriminate).
  assert (Mt : Z.of_nat (length test_group) <= PyInt.sys_maxsize)
    by (rewrite Lt; vm_compute; discriminate).
  split; [|split].
  - unfold ctr_cell.
    rewrite (click_through_rate_binary control_group Bc Nc Mc).
    rewrite (click_through_rate_binary test_group Bt Nt Mt).
    rewrite Lc, Lt. reflexivity.
  - intros H0 H1. rewrite power_lambda_cases.
    rewrite !count_truediv_ok by assumption.
    rewrite Lt. reflexivity.
  - intros Hz. unfold power_estimate. rewrite power_lambda_cases.
    destruct Hz as [Hz|Hz].
    + rewrite Hz. reflexivity.
    + destruct (Z.eq_dec (count 0 control_group) 0) as [H0|H0];
        [rewrite H0; reflexivity|].
      rewrite (count_truediv_ok 0) by assumption.
      rewrite Hz. reflexivity.
Qed.

(** * Canonical results *)

Lemma digits2_pos_lt p : Zpos p < 2 ^ Zpos (digits2_pos p).
Proof.
  induction p as [p IH|p IH|]; simpl digits2_pos; [| |simpl; lia];
    rewrite Pos2Z.inj_succ, Z.pow_succ_r by lia; lia.
Qed.

Lemma Zdigits2_bounds m :
  0 < m -> 0 < Zdigits2 m /\ 2 ^ (Zdigits2 m - 1) <= m < 2 ^ Zdigits2 m.
Proof.
  intros Hm. destruct m as [|p|p]; try lia. simpl Zdigits2.
  split; [lia|]. split; [apply digits2_pos_lower|apply digits2_pos_lt].
Qed.

Lemma Zdigits2_unique m k :
  2 ^ (k - 1) <= m < 2 ^ k -> 0 < m -> Zdigits2 m = k.
Proof.
  intros [Hl Hu] Hm.
  destruct (Zdigits2_bounds m Hm) as (Hd & Hdl & Hdu).
  assert (Hk : 0 < k).
  { destruct (Z_lt_le_dec 0 k) as [|Hk]; [assumption|exfalso].
    destruct (Z.eq_dec k 0) as [->|]; [simpl in Hu; lia|].
    rewrite Z.pow_neg_r in Hu by lia. lia. }
  assert (H1 : Zdigits2 m - 1 < k).
  { apply (Z.pow_lt_mono_r_iff 2); lia. }
  assert (H2 : k - 1 < Zdigits2 m).
  { apply (Z.pow_lt_mono_r_iff 2); lia. }
  lia.
Qed.

Lemma Zdigits2_zero : Zdigits2 0 = 0.
Proof. reflexivity. Qed.

Lemma Zdigits2_nonneg m : 0 <= Zdigits2 m.
Proof. destruct m; simpl; lia. Qed.

Lemma Zdigits2_mono m n : 0 <= m <= n -> Zdigits2 m <= Zdigits2 n.
Proof.
  intros [Hm Hn]. destruct (Z.eq_dec m 0) as [->|Hne].
  - apply Zdigits2_nonneg.
  - destruct (Zdigits2_bounds m ltac:(lia)) as (_ & Hl & _).
    destruct (Zdigits2_bounds n ltac:(lia)) as (Hd & _ & Hu).
    assert (H : Zdigits2 m - 1 < Zdigits2 n)
      by (apply (Z.pow_lt_mono_r_iff 2); lia).
    lia.
Qed.

(** The digits of a mantissa shifted right by [n]. *)
Lemma Zdigits2_shift m n :
  0 <= m -> 0 <= n ->
  Zdigits2 (m / 2 ^ n) = Z.max 0 (Zdigits2 m - n).
Proof.
  intros Hm Hn. assert (Hp : 0 < 2 ^ n) by (apply Z.pow_pos_nonneg; lia).
  destruct (Z.eq_dec m 0) as [->|Hne].
  - rewrite Z.div_0_l by lia. simpl. lia.
  - destruct (Zdigits2_bounds m ltac:(lia)) as (Hd & Hl & Hu).
    set (d := Zdigits2 m) in *.
    destruct (Z_lt_le_dec n d) as [Hnd|Hnd].
    + rewrite Z.max_r by lia.
      assert (E1 : 2 ^ d = 2 ^ (d - n) * 2 ^ n)
        by (rewrite <- Z.pow_add_r by lia; f_equal; lia).
      assert (E2 : 2 ^ (d - 1) = 2 ^ (d - n - 1) * 2 ^ n)
        by (rewrite <- Z.pow_add_r by lia; f_equal; lia).
      assert (Hq : 2 ^ (d - n - 1) <= m / 2 ^ n < 2 ^ (d - n)).
      { split.
        - apply Z.div_le_lower_bound; [assumption|]. rewrite Z.mul_comm. lia.
        - apply Z.div_lt_upper_bound; [assumption|]. rewrite Z.mul_comm. lia. }
      assert (0 < 2 ^ (d - n - 1)) by (apply Z.pow_pos_nonneg; lia).
      apply Zdigits2_unique; [|lia].
      replace (d - n - 1) with (d - n - 1) by lia. exact Hq.
    + rewrite Z.max_l by lia.
      assert (2 ^ d <= 2 ^ n) by (apply Z.pow_le_mono_r; lia).
      rewrite Z.div_small by lia. reflexivity.
Qed.

(** [shr_fexp] shifts to the exponent of the format. *)
Lemma shr_fexp_spec m e l :
  0 <= m -> e <= fexp prec emax (Zdigits2 m + e) ->
  snd (shr_fexp prec emax m e l) = fexp prec emax (Zdigits2 m + e) /\
  shr_m (fst (shr_fexp prec emax m e l))
  = m / 2 ^ (fexp prec emax (Zdigits2 m + e) - e).
Proof.
  intros Hm He. unfold shr_fexp, shr.
  destruct (fexp prec emax (Zdigits2 m + e) - e) as [|n|n] eqn:En; try lia.
  - simpl. rewrite shr_m_record_of_loc, Z.div_1_r. split; lia.
  - simpl fst. simpl snd.
    rewrite iter_shr_1_m by (rewrite shr_m_record_of_loc; assumption).
    rewrite shr_m_record_of_loc. split; [lia|reflexivity].
Qed.

(** After the shift the mantissa has the digits its exponent asks for. *)
Lemma canonical_after_shift m e :
  0 <= m -> e <= fexp prec emax (Zdigits2 m + e) ->
  let f := fexp prec emax (Zdigits2 m + e) in
  fexp prec emax (Zdigits2 (m / 2 ^ (f - e)) + f) = f.
Proof.
  intros Hm He f. rewrite Zdigits2_shift by lia.
  pose proof (Zdigits2_nonneg m).
  subst f. revert He. unfold fexp, SpecFloat.emin, prec, emax. lia.
Qed.

Lemma fexp_mono x y : x <= y -> fexp prec emax x <= fexp prec emax y.
Proof. unfold fexp. lia. Qed.

Lemma valid_binary_finite sx m e :
  0 < m -> fexp prec emax (Zdigits2 m + e) = e ->
  valid_binary match m with
               | Z0 => S754_zero sx
               | Zpos p => if e <=? emax - prec then S754_finite sx p e
                           else S754_infinity sx
               | Zneg _ => S754_nan
               end = true.
Proof.
  intros Hm Hc. destruct m as [|p|p]; try lia.
  destruct (Z.leb_spec e (emax - prec)); [|reflexivity].
  simpl. unfold bounded, canonical_mantissa. simpl Zdigits2 in Hc.
  rewrite Hc, Z.eqb_refl. simpl. apply Z.leb_le. assumption.
Qed.

(** What [binary_round_aux] returns, for a mantissa with at least the
    digits of the format: the mantissa shifted to the exponent [f] of the
    format, rounded to [m2], and shifted again to the exponent [m2] asks
    for; the result is canonical. *)
Lemma binary_round_aux_spec sx m e l :
  0 <= m -> e <= fexp prec emax (Zdigits2 m + e) ->
  let f := fexp prec emax (Zdigits2 m + e) in
  exists m2,
    m / 2 ^ (f - e) <= m2 <= m / 2 ^ (f - e) + 1 /\
    let g := fexp prec emax (Zdigits2 m2 + f) in
    let m3 := m2 / 2 ^ (g - f) in
    f <= g /\ 0 <= m3 /\ fexp prec emax (Zdigits2 m3 + g) = g /\
    binary_round_aux prec emax sx m e l
    = match m3 with
      | Z0 => S754_zero sx
      | Zpos p => if g <=? emax - prec then S754_finite sx p g
                  else S754_infinity sx
      | Zneg _ => S754_nan
      end.
Proof.
  intros Hm He f. unfold binary_round_aux.
  destruct (shr_fexp_spec m e l Hm He) as [E1 M1].
  pose proof (canonical_after_shift m e Hm He) as C1. cbv zeta in C1.
  fold f in E1, M1, C1.
  destruct (shr_fexp prec emax m e l) as [mrs1 e1]. simpl in E1, M1. subst e1.
  assert (Hp : 0 < 2 ^ (f - e)) by (apply Z.pow_pos_nonneg; lia).
  assert (H1 : 0 <= m / 2 ^ (f - e)) by (apply Z.div_pos; lia).
  pose proof (round_nearest_even_le (shr_m mrs1) (loc_of_shr_record mrs1)) as R1.
  pose proof (round_nearest_even_succ (shr_m mrs1) (loc_of_shr_record mrs1)) as R2.
  set (m2 := round_nearest_even (shr_m mrs1) (loc_of_shr_record mrs1)) in *.
  rewrite M1 in R1, R2.
  assert (H2 : 0 <= m2) by lia.
  assert (He2 : f <= fexp prec emax (Zdigits2 m2 + f)).
  { rewrite <- C1 at 1. apply fexp_mono.
    pose proof (Zdigits2_mono (m / 2 ^ (f - e)) m2 ltac:(lia)). lia. }
  destruct (shr_fexp_spec m2 f loc_Exact H2 He2) as [E3 M3].
  pose proof (canonical_after_shift m2 f H2 He2) as C3. cbv zeta in C3.
  exists m2. split; [lia|]. cbv zeta.
  set (g := fexp prec emax (Zdigits2 m2 + f)) in *.
  destruct (shr_fexp prec emax m2 f loc_Exact) as [mrs3 e3]. simpl in E3, M3.
  subst e3. rewrite <- M3.
  assert (Hq : 0 < 2 ^ (g - f)) by (apply Z.pow_pos_nonneg; lia).
  split; [assumption|]. split; [rewrite M3; apply Z.div_pos; lia|].
  split; [rewrite M3; assumption|reflexivity].
Qed.

Lemma binary_round_aux_valid sx m e l :
  0 <= m -> e <= fexp prec emax (Zdigits2 m + e) ->
  valid_binary (binary_round_aux prec emax sx m e l) = true.
Proof.
  intros Hm He.
  destruct (binary_round_aux_spec sx m e l Hm He) as (m2 & _ & _ & H0 & Hc & ->).
  match goal with |- context [match ?m3 with _ => _ end] =>
    destruct (Z.eq_dec m3 0) as [->|Hne]; [reflexivity|];
    apply valid_binary_finite; [lia|assumption]
  end.
Qed.

(** ** Quotients of integers *)

(** The quotient and exponent [SFdiv_core_binary] hands to the rounding,
    for two positive integers. *)
Lemma SFdiv_core_int a b :
  let e' := Z.min (fexp prec emax (Zdigits2 (Zpos a) - Zdigits2 (Zpos b))) 0 in
  let q := (Zpos a * 2 ^ (- e')) / Zpos b in
  exists l,
    SFdiv_core_binary prec emax (Zpos a) 0 (Zpos b) 0 = (q, e', l)
    /\ (Zpos a * 2 ^ (- e') mod Zpos b = 0 -> l = loc_Exact)
    /\ 0 <= q /\ e' <= fexp prec emax (Zdigits2 q + e').
Proof.
  intros e' q.
  assert (He' : e' <= 0) by (unfold e'; lia).
  assert (Hp : 0 < 2 ^ (- e')) by (apply Z.pow_pos_nonneg; lia).
  assert (Hq : 0 <= q) by (apply Z.div_pos; nia).
  unfold SFdiv_core_binary.
  replace (Zdigits2 (Zpos a) + 0 - (Zdigits2 (Zpos b) + 0))
    with (Zdigits2 (Zpos a) - Zdigits2 (Zpos b)) by lia.
  change (0 - 0) with 0. fold e'.
  assert (Em : match 0 - e' with
               | 0 => Zpos a
               | Zpos _ => Z.shiftl (Zpos a) (0 - e')
               | Zneg _ => 0
               end = Zpos a * 2 ^ (- e')).
  { destruct (0 - e') as [|n|n] eqn:En; try lia.
    - replace (- e') with 0 by lia. simpl. lia.
    - rewrite Z.shiftl_mul_pow2 by lia. replace (- e') with (Zpos n) by lia.
      reflexivity. }
  rewrite Em.
  pose proof (Z_div_mod (Zpos a * 2 ^ (- e')) (Zpos b) eq_refl) as Hd.
  unfold q, Z.div. unfold Z.modulo.
  destruct (Z.div_eucl (Zpos a * 2 ^ (- e')) (Zpos b)) as [q' r] eqn:Ed.
  simpl fst. simpl snd.
  eexists. split; [reflexivity|]. split.
  { intros ->. unfold new_location.
    destruct (Z.even (Zpos b)); reflexivity. }
  split; [nia|].
  assert (Eq : q' = q) by (unfold q, Z.div; rewrite Ed; reflexivity).
  rewrite Eq. clear Em Hd Ed Eq q' r.
  destruct (Zdigits2_bounds (Zpos a) ltac:(lia)) as (Hd1 & Hl1 & Hu1).
  destruct (Zdigits2_bounds (Zpos b) ltac:(lia)) as (Hd2 & Hl2 & Hu2).
  set (d1 := Zdigits2 (Zpos a)) in *. set (d2 := Zdigits2 (Zpos b)) in *.
  assert (Hdq : d1 - e' - d2 <= Zdigits2 q).
  { destruct (Z_lt_le_dec (d1 - 1 - e' - d2) 0) as [Hk|Hk].
    - pose proof (Zdigits2_nonneg q). lia.
    - assert (Hk2 : 2 ^ (d1 - 1 - e' - d2) <= q).
      { unfold q. apply Z.div_le_lower_bound; [lia|].
        assert (E : 2 ^ (d1 - 1) * 2 ^ (- e')
                    = 2 ^ d2 * 2 ^ (d1 - 1 - e' - d2)).
        { rewrite <- !Z.pow_add_r by lia. f_equal. lia. }
        assert (0 < 2 ^ (d1 - 1 - e' - d2)) by (apply Z.pow_pos_nonneg; lia).
        nia. }
      assert (0 < 2 ^ (d1 - 1 - e' - d2)) by (apply Z.pow_pos_nonneg; lia).
      destruct (Zdigits2_bounds q ltac:(lia)) as (Hdq & _ & Huq).
      assert (d1 - 1 - e' - d2 < Zdigits2 q)
        by (apply (Z.pow_lt_mono_r_iff 2); lia).
      lia. }
  apply Z.le_trans with (fexp prec emax (d1 - d2)); [unfold e'; lia|].
  apply fexp_mono. lia.
Qed.

Local Open Scope float_scope.

(** Python's quotient of a count by a positive count is the float the
    division of the specification gives. *)
Lemma quotient_Prim2SF a b :
  (0 <= a)%Z -> (0 < b)%Z ->
  Prim2SF (PyInt.quotient a b) = SF64div (PyInt.Z2SF a) (PyInt.Z2SF b).
Proof.
  intros Ha Hb. unfold PyInt.quotient. apply Prim2SF_SF2Prim.
  destruct a as [|a|a], b as [|b|b]; try lia; [reflexivity|].
  simpl PyInt.Z2SF. unfold SF64div, SFdiv.
  destruct (SFdiv_core_int a b) as (l & -> & _ & Hq & Hc).
  apply binary_round_aux_valid; assumption.
Qed.

Lemma quotient_zero b : (0 < b)%Z -> PyInt.quotient 0 b = 0.
Proof. intros Hb. destruct b; try lia; reflexivity. Qed.

(** A positive integer divided by itself is exactly 1.0. *)
Lemma quotient_same a : (0 < a)%Z -> PyInt.quotient a a = 1.
Proof.
  intros Ha. destruct a as [|a|a]; try lia.
  unfold PyInt.quotient. simpl PyInt.Z2SF. unfold SF64div, SFdiv.
  destruct (SFdiv_core_int a a) as (l & -> & Hl & _).
  rewrite Z.sub_diag in *.
  change (Z.min (fexp prec emax 0) 0) with (-53)%Z in *.
  assert (Hm : ((Zpos a * 2 ^ (- -53)) mod Zpos a = 0)%Z)
    by (rewrite Z.mul_comm; apply Z.mod_mul; lia).
  assert (Hd : (Zpos a * 2 ^ (- -53) / Zpos a = 2 ^ 53)%Z)
    by (rewrite Z.mul_comm; apply Z.div_mul; lia).
  rewrite (Hl Hm), Hd. reflexivity.
Qed.

Lemma SFleb_one m e :
  (Zpos m <= 2 ^ (- e))%Z -> (e <= -52)%Z ->
  SFleb (S754_finite false m e) (S754_finite false 4503599627370496 (-52)) = true.
Proof.
  intros Hm He. unfold SFleb, SFcompare.
  destruct (Z.compare_spec e (-52)) as [Eg|Eg|Eg]; try reflexivity; [|lia].
  subst e. rewrite Pos.compare_cont_spec. unfold Pos.switch_Eq.
  destruct (Pos.compare_spec m 4503599627370496) as [E|E|E]; try reflexivity.
  assert (H : (2 ^ (- -52) = 4503599627370496)%Z) by reflexivity.
  rewrite H in Hm. lia.
Qed.

(** A count divided by a count that is not smaller is at most 1.0. *)
Lemma quotient_le_one a b :
  (0 <= a <= b)%Z -> (0 < b)%Z -> (PyInt.quotient a b <=? 1) = true.
Proof.
  intros Hab Hb.
  destruct (Z.eq_dec a 0) as [->|Ha0]; [rewrite quotient_zero by lia; reflexivity|].
  destruct (Z.eq_dec a b) as [->|Hne]; [rewrite quotient_same by lia; reflexivity|].
  rewrite leb_spec, quotient_Prim2SF by lia.
  change (Prim2SF 1) with (S754_finite false 4503599627370496 (-52)).
  destruct a as [|a|a], b as [|b|b]; try lia.
  simpl PyInt.Z2SF. unfold SF64div, SFdiv.
  destruct (SFdiv_core_int a b) as (l & -> & _ & Hq & Hc).
  set (e' := Z.min (fexp prec emax (Zdigits2 (Zpos a) - Zdigits2 (Zpos b))) 0) in *.
  set (q := (Zpos a * 2 ^ (- e') / Zpos b)%Z) in *.
  assert (He' : (e' <= 0)%Z) by (unfold e'; lia).
  assert (Hp : (0 < 2 ^ (- e'))%Z) by (apply Z.pow_pos_nonneg; lia).
  assert (Hq1 : (q < 2 ^ (- e'))%Z).
  { unfold q. apply Z.div_lt_upper_bound; [lia|]. nia. }
  simpl xorb.
  destruct (binary_round_aux_spec false q e' l Hq Hc)
    as (m2 & Hm2 & Hfg & Hm3 & Hcan & ->).
  set (f := fexp prec emax (Zdigits2 q + e')) in *.
  set (g := fexp prec emax (Zdigits2 m2 + f)) in *.
  set (m3 := (m2 / 2 ^ (g - f))%Z) in *.
  (* the shifted quotient stays below [2 ^ (- f)] *)
  assert (Hdq : (Zdigits2 q <= - e')%Z).
  { destruct (Z.eq_dec q 0) as [->|]; [simpl; lia|].
    destruct (Zdigits2_bounds q ltac:(lia)) as (? & Hl & _).
    assert (Zdigits2 q - 1 < - e')%Z by (apply (Z.pow_lt_mono_r_iff 2); lia).
    lia. }
  assert (Hf : (f <= -53)%Z)
    by (unfold f, fexp, SpecFloat.emin, prec, emax; lia).
  assert (Hpf : (0 < 2 ^ (f - e'))%Z) by (apply Z.pow_pos_nonneg; lia).
  assert (Hpnf : (0 < 2 ^ (- f))%Z) by (apply Z.pow_pos_nonneg; lia).
  assert (Hm1 : (q / 2 ^ (f - e') < 2 ^ (- f))%Z).
  { apply Z.div_lt_upper_bound; [lia|].
    rewrite <- Z.pow_add_r by lia. replace (f - e' + - f)%Z with (- e')%Z by lia.
    assumption. }
  assert (Hm2' : (0 <= m2 <= 2 ^ (- f))%Z).
  { split; [|lia]. assert (0 <= q / 2 ^ (f - e'))%Z by (apply Z.div_pos; lia). lia. }
  assert (Hdm2 : (Zdigits2 m2 <= - f + 1)%Z).
  { destruct (Z.eq_dec m2 0) as [->|]; [simpl; lia|].
    destruct (Zdigits2_bounds m2 ltac:(lia)) as (? & Hl & _).
    assert (Zdigits2 m2 - 1 < - f + 1)%Z.
    { apply (Z.pow_lt_mono_r_iff 2); [lia|lia|].
      rewrite Z.pow_add_r by lia. lia. }
    lia. }
  assert (Hg : (g <= -52)%Z)
    by (unfold g, fexp, SpecFloat.emin, prec, emax; lia).
  assert (Hpg : (0 < 2 ^ (g - f))%Z) by (apply Z.pow_pos_nonneg; lia).
  assert (Hm3' : (m3 <= 2 ^ (- g))%Z).
  { unfold m3. apply Z.div_le_upper_bound; [lia|].
    rewrite <- Z.pow_add_r by lia. replace (g - f + - g)%Z with (- f)%Z by lia.
    lia. }
  clearbody m3 g. clear - Hm3 Hg Hm3'.
  destruct m3 as [|p|p]; try lia; [reflexivity|].
  destruct (Z.leb_spec g (emax - prec)) as [_|Hgm];
    [|unfold emax, prec in Hgm; lia].
  apply SFleb_one; assumption.
Qed.

Local Close Scope float_scope.

(** * The range of the click-through rate *)

(** X18: the click-through rate of an outcome sequence, when the cell
    computes one, lies between 0.0 and 1.0; it is exactly 0.0 for a group
    without ones and exactly 1.0 for a group without zeros. *)
Theorem click_through_rate_range (group : list Z) (ctr : float) :
  binary group ->
  Z.of_nat (length group) <= PyInt.sys_maxsize ->
  click_through_rate group = Ok ctr ->
  (0 <=? ctr)%float = true /\ (ctr <=? 1)%float = true
  /\ (count 1 group = 0 -> ctr = 0%float)
  /\ (count 0 group = 0 -> ctr = 1%float).
Proof.
  intros Hb Hlen Hctr.
  assert (Hne : group <> []) by (intros ->; discriminate).
  rewrite (click_through_rate_binary group Hb Hne Hlen) in Hctr.
  injection Hctr as <-.
  assert (Hpos : 0 < Z.of_nat (length group))
    by (destruct group; [congruence|simpl length; lia]).
  pose proof (count_nonneg 1 group) as H1.
  pose proof (count_le_length 1 group) as H2.
  split; [apply SF_nonneg_leb, quotient_nonneg; assumption|].
  split; [apply quotient_le_one; lia|].
  split.
  - intros ->. apply quotient_zero. assumption.
  - intros H0. pose proof (binary_counts group Hb) as Hc.
    rewrite H0 in Hc. simpl in Hc. rewrite Hc. apply quotient_same. assumption.
Qed.

Lemma click_through_rate_range_witness :
  (0 <=? 0.0578)%float = true /\ (0.0578 <=? 1)%float = true
  /\ (count 1 (outcomes 4711 289) = 0 -> 0.0578%float = 0%float)
  /\ (count 0 (outcomes 4711 289) = 0 -> 0.0578%float = 1%float).
Proof.
  apply (click_through_rate_range (outcomes 4711 289) 0.0578
           (binary_outcomes _ _)).
  - vm_compute. discriminate.
  - vm_compute. reflexivity.
Defined.

(** * Counts as float64

    A count below [2 ^ 53] is a float64 as it is, and so is the sum of two
    counts that stays below [2 ^ 53]. *)

(** Shifting out zeros leaves nothing to round. *)
Lemma shr_1_exact m :
  0 <= m ->
  shr_1 {| shr_m := 2 * m; shr_r := false; shr_s := false |}
  = {| shr_m := m; shr_r := false; shr_s := false |}.
Proof. intros Hm. destruct m as [|p|p]; try lia; reflexivity. Qed.

Lemma iter_shr_1_exact n : forall m,
  0 <= m ->
  iter_pos shr_1 n {| shr_m := m * 2 ^ Zpos n; shr_r := false; shr_s := false |}
  = {| shr_m := m; shr_r := false; shr_s := false |}.
Proof.
  assert (pw : forall k, 0 < 2 ^ Zpos k) by (intro; apply Z.pow_pos_nonneg; lia).
  assert (dbl : forall k, 2 ^ Zpos k~0 = 2 ^ Zpos k * 2 ^ Zpos k).
  { intros k. replace (Zpos k~0) with (Zpos k + Zpos k) by lia.
    apply Z.pow_add_r; lia. }
  assert (dbl1 : forall k, 2 ^ Zpos k~1 = 2 * (2 ^ Zpos k * 2 ^ Zpos k)).
  { intros k. replace (Zpos k~1) with (1 + (Zpos k + Zpos k)) by lia.
    rewrite !Z.pow_add_r by lia. reflexivity. }
  induction n as [n IH|n IH|]; intros m Hm; cbn [iter_pos].
  - replace (m * 2 ^ Zpos n~1) with (2 * ((m * 2 ^ Zpos n) * 2 ^ Zpos n))
      by (rewrite dbl1; ring).
    rewrite shr_1_exact by (pose proof (pw n); nia).
    rewrite IH by (pose proof (pw n); nia). apply IH. assumption.
  - replace (m * 2 ^ Zpos n~0) with ((m * 2 ^ Zpos n) * 2 ^ Zpos n)
      by (rewrite dbl; ring).
    rewrite IH by (pose proof (pw n); nia). apply IH. assumption.
  - change (2 ^ 1) with 2. rewrite Z.mul_comm. apply shr_1_exact. assumption.
Qed.

(** A mantissa whose digits beyond the format are zeros is rounded to
    itself, shifted. *)
Lemma binary_round_aux_exact sx m e :
  0 < m ->
  let f := fexp prec emax (Zdigits2 m + e) in
  e <= f -> f <= emax - prec ->
  (exists q, m = q * 2 ^ (f - e)) ->
  binary_round_aux prec emax sx m e loc_Exact
  = S754_finite sx (Z.to_pos (m / 2 ^ (f - e))) f.
Proof.
  intros Hm f He Hf [q Hq].
  assert (Hp : 0 < 2 ^ (f - e)) by (apply Z.pow_pos_nonneg; lia).
  assert (Hq0 : 0 < q) by nia.
  assert (Ediv : m / 2 ^ (f - e) = q) by (rewrite Hq; apply Z.div_mul; lia).
  pose proof (canonical_after_shift m e ltac:(lia) He) as C1. cbv zeta in C1.
  fold f in C1. rewrite Ediv in *.
  assert (S1 : shr_fexp prec emax m e loc_Exact
               = ({| shr_m := q; shr_r := false; shr_s := false |}, f)).
  { unfold shr_fexp, shr. fold f. simpl shr_record_of_loc.
    destruct (f - e) as [|n|n] eqn:En; try lia.
    - f_equal; [|lia]. f_equal. rewrite Hq. simpl. lia.
    - f_equal; [|lia]. rewrite Hq. apply iter_shr_1_exact. lia. }
  assert (S2 : shr_fexp prec emax q f loc_Exact
               = ({| shr_m := q; shr_r := false; shr_s := false |}, f)).
  { unfold shr_fexp, shr. rewrite C1, Z.sub_diag. reflexivity. }
  unfold binary_round_aux. rewrite S1. simpl loc_of_shr_record.
  simpl round_nearest_even. simpl shr_m. rewrite S2. simpl shr_m.
  destruct q as [|p|p]; try lia.
  destruct (Z.leb_spec f (emax - prec)); [reflexivity|lia].
Qed.

Lemma shl_align_value m e e' :
  e' <= e ->
  Zpos (fst (shl_align m e e')) = Zpos m * 2 ^ (e - e')
  /\ snd (shl_align m e e') = e'.
Proof.
  intros He. unfold shl_align.
  destruct (e' - e) as [|d|d] eqn:Ed; try lia; simpl fst; simpl snd.
  - replace (e - e') with 0 by lia. split; lia.
  - split; [|reflexivity].
    change (Pos.iter xO m d) with (shift_pos d m).
    rewrite shift_pos_correct. replace (e - e') with (Zpos d) by lia.
    rewrite Z.mul_comm. reflexivity.
Qed.

(** Rounding [n * 2 ^ k] at the exponent [- k] gives the float64 of [n],
    whatever [k]. *)
Lemma binary_round_int p k P :
  Zpos p < 2 ^ 53 -> 0 <= k -> Zpos P = Zpos p * 2 ^ k ->
  binary_round prec emax false P (- k) = canonical_int (Zpos p).
Proof.
  intros Hn Hk HP.
  destruct (Zdigits2_bounds (Zpos p) ltac:(lia)) as (Hd & Hl & Hu).
  assert (Hd53 : Zdigits2 (Zpos p) <= 53)
    by (apply Zdigits2_upper; lia).
  set (n := Zpos p) in *. set (d := Zdigits2 n) in *.
  assert (Hpk : 0 < 2 ^ k) by (apply Z.pow_pos_nonneg; lia).
  assert (HdP : Zdigits2 (Zpos P) = d + k).
  { apply Zdigits2_unique; [|lia]. rewrite HP.
    replace (d + k - 1) with ((d - 1) + k) by lia.
    rewrite !Z.pow_add_r by lia. nia. }
  assert (HF : fexp prec emax (d + k + - k) = d - 53)
    by (unfold fexp, SpecFloat.emin, prec, emax; lia).
  unfold binary_round, canonical_int. fold n d.
  change (Zpos (digits2_pos P)) with (Zdigits2 (Zpos P)).
  rewrite HdP, HF. change prec with 53.
  assert (Hp53 : 0 < 2 ^ (53 - d)) by (apply Z.pow_pos_nonneg; lia).
  destruct (Z_lt_le_dec (d - 53) (- k)) as [Hlt|Hge].
  - (* the mantissa is shifted left to 53 digits *)
    destruct (shl_align_value P (- k) (d - 53) ltac:(lia)) as [Ev Ee].
    destruct (shl_align P (- k) (d - 53)) as [mz ez]. cbn [fst snd] in Ev, Ee.
    subst ez.
    assert (Emz : Zpos mz = n * 2 ^ (53 - d)).
    { rewrite Ev, HP, <- Z.mul_assoc, <- Z.pow_add_r by lia.
      f_equal. f_equal. lia. }
    assert (Hdz : Zdigits2 (Zpos mz) = 53).
    { apply Zdigits2_unique; [|lia]. rewrite Emz.
      assert (E52 : 2 ^ (53 - 1) = 2 ^ (d - 1) * 2 ^ (53 - d))
        by (rewrite <- Z.pow_add_r by lia; f_equal; lia).
      assert (E53 : 2 ^ 53 = 2 ^ d * 2 ^ (53 - d))
        by (rewrite <- Z.pow_add_r by lia; f_equal; lia).
      rewrite E52, E53. nia. }
    rewrite binary_round_aux_exact.
    + rewrite Hdz.
      replace (fexp prec emax (53 + (d - 53))) with (d - 53)
        by (unfold fexp, SpecFloat.emin, prec, emax; lia).
      rewrite Z.sub_diag, Z.div_1_r, Emz. reflexivity.
    + lia.
    + rewrite Hdz. unfold fexp, SpecFloat.emin, prec, emax. lia.
    + rewrite Hdz. unfold fexp, SpecFloat.emin, prec, emax. lia.
    + rewrite Hdz.
      replace (fexp prec emax (53 + (d - 53))) with (d - 53)
        by (unfold fexp, SpecFloat.emin, prec, emax; lia).
      exists (Zpos mz). rewrite Z.sub_diag. lia.
  - (* the zeros are shifted out *)
    assert (Es : shl_align P (- k) (d - 53) = (P, - k)).
    { unfold shl_align. destruct (d - 53 - - k) eqn:E; try lia; reflexivity. }
    rewrite Es.
    assert (Ediv : Zpos P = (n * 2 ^ (53 - d)) * 2 ^ (d - 53 - - k)).
    { rewrite HP, <- Z.mul_assoc, <- Z.pow_add_r by lia. f_equal. f_equal. lia. }
    rewrite binary_round_aux_exact; rewrite ?HdP, ?HF.
    + rewrite Ediv at 1. rewrite Z.div_mul; [reflexivity|].
      apply Z.pow_nonzero; lia.
    + lia.
    + lia.
    + unfold emax, prec. lia.
    + eexists. exact Ediv.
Qed.

Lemma float64_of_int_small n :
  0 < n < 2 ^ 53 -> Numpy.float64_of_int n = canonical_int n.
Proof.
  intros Hn. destruct n as [|p|p]; try lia.
  unfold Numpy.float64_of_int, binary_normalize.
  apply (binary_round_int p 0 p); lia.
Qed.

Lemma canonical_int_mantissa n :
  0 < n < 2 ^ 53 ->
  Zpos (Z.to_pos (n * 2 ^ (prec - Zdigits2 n))) = n * 2 ^ (prec - Zdigits2 n)
  /\ Zdigits2 n - prec <= 0.
Proof.
  intros Hn.
  assert (Hd : Zdigits2 n <= 53) by (apply Zdigits2_upper; lia).
  assert (0 < 2 ^ (prec - Zdigits2 n))
    by (apply Z.pow_pos_nonneg; unfold prec; lia).
  split; [apply Z2Pos.id; nia|unfold prec; lia].
Qed.

(** The sum of two counts, as floats, is the float of their sum. *)
Lemma SFadd_small a b :
  0 <= a -> 0 <= b -> a + b < 2 ^ 53 ->
  SF64add (Numpy.float64_of_int a) (Numpy.float64_of_int b)
  = Numpy.float64_of_int (a + b).
Proof.
  intros Ha Hb Hab.
  destruct (Z.eq_dec a 0) as [->|Na];
    [destruct (Z.eq_dec b 0) as [->|Nb]; [reflexivity|]|].
  { rewrite Z.add_0_l, (float64_of_int_small b) by lia. reflexivity. }
  destruct (Z.eq_dec b 0) as [->|Nb].
  { rewrite Z.add_0_r, (float64_of_int_small a) by lia. reflexivity. }
  rewrite (float64_of_int_small a), (float64_of_int_small b),
    (float64_of_int_small (a + b)) by lia.
  destruct (canonical_int_mantissa a ltac:(lia)) as [Ma Ea].
  destruct (canonical_int_mantissa b ltac:(lia)) as [Mb Eb].
  unfold canonical_int at 1 2. unfold SF64add, SFadd.
  set (ea := Zdigits2 a - prec) in *. set (eb := Zdigits2 b - prec) in *.
  set (ma := Z.to_pos (a * 2 ^ (prec - Zdigits2 a))) in *.
  set (mb := Z.to_pos (b * 2 ^ (prec - Zdigits2 b))) in *.
  set (ez := Z.min ea eb).
  destruct (shl_align_value ma ea ez ltac:(unfold ez; lia)) as [Va _].
  destruct (shl_align_value mb eb ez ltac:(unfold ez; lia)) as [Vb _].
  cbn [cond_Zopp]. rewrite Va, Vb, Ma, Mb.
  replace (prec - Zdigits2 a) with (- ea) by (unfold ea; lia).
  replace (prec - Zdigits2 b) with (- eb) by (unfold eb; lia).
  rewrite <- !Z.mul_assoc, <- !Z.pow_add_r by (unfold ez; lia).
  replace (- ea + (ea - ez)) with (- ez) by lia.
  replace (- eb + (eb - ez)) with (- ez) by lia.
  rewrite <- Z.mul_add_distr_r.
  assert (Hp : 0 < 2 ^ (- ez)) by (apply Z.pow_pos_nonneg; unfold ez; lia).
  destruct ((a + b) * 2 ^ (- ez)) as [|P|P] eqn:EP; try nia.
  destruct (a + b) as [|q|q] eqn:Eq; try lia.
  unfold binary_normalize.
  pose proof (binary_round_int q (- ez) P ltac:(lia) ltac:(unfold ez; lia)
                ltac:(lia)) as H.
  rewrite Z.opp_involutive in H. exact H.
Qed.

(** The conversion of a count gives a float64 of the format. *)
Lemma float64_of_int_valid z :
  0 <= z -> valid_binary (Numpy.float64_of_int z) = true.
Proof.
  intros Hz. destruct z as [|p|p]; try lia; [reflexivity|].
  unfold Numpy.float64_of_int, binary_normalize, binary_round.
  set (f := fexp prec emax (Zpos (digits2_pos p) + 0)).
  destruct (Z_le_gt_dec f 0) as [Hf|Hf].
  - destruct (shl_align_value p 0 f Hf) as [Ev Ee].
    destruct (shl_align p 0 f) as [mz ez]. cbn [fst snd] in Ev, Ee. subst ez.
    apply binary_round_aux_valid; [lia|].
    assert (Hp : 0 < 2 ^ (0 - f)) by (apply Z.pow_pos_nonneg; lia).
    destruct (Zdigits2_bounds (Zpos p) ltac:(lia)) as (Hd & Hl & Hu).
    assert (Hdz : Zdigits2 (Zpos mz) = Zdigits2 (Zpos p) + (0 - f)).
    { apply Zdigits2_unique; [|lia]. rewrite Ev.
      replace (Zdigits2 (Zpos p) + (0 - f) - 1)
        with ((Zdigits2 (Zpos p) - 1) + (0 - f)) by lia.
      rewrite !Z.pow_add_r by lia. nia. }
    rewrite Hdz. unfold f. simpl Zdigits2.
    apply Z.eq_le_incl. f_equal. lia.
  - assert (Es : shl_align p 0 f = (p, 0)).
    { unfold shl_align. destruct (f - 0) eqn:E; try lia; reflexivity. }
    rewrite Es. apply binary_round_aux_valid; [lia|].
    change (Zdigits2 (Zpos p)) with (Zpos (digits2_pos p)). fold f. lia.
Qed.

Lemma float64_Prim2SF z :
  0 <= z -> Prim2SF (Numpy.float64 z) = Numpy.float64_of_int z.
Proof.
  intros Hz. unfold Numpy.float64.
  apply Prim2SF_SF2Prim, float64_of_int_valid. assumption.
Qed.

(** A count that Python can hold is a finite float64. *)
Lemma float64_of_int_finite z :
  0 < z < 2 ^ 1023 ->
  exists m e, Numpy.float64_of_int z = S754_finite false m e.
Proof.
  intros Hz.
  pose proof (float64_of_int_positive z ltac:(lia)) as Hpos.
  assert (Hfin : forall s, Numpy.float64_of_int z <> S754_infinity s).
  { destruct z as [|p|p]; try lia.
    unfold Numpy.float64_of_int, binary_normalize, binary_round.
    set (f := fexp prec emax (Zpos (digits2_pos p) + 0)).
    destruct (Zdigits2_bounds (Zpos p) ltac:(lia)) as (Hd & Hl & Hu).
    assert (Hd1023 : Zdigits2 (Zpos p) <= 1023)
      by (apply Zdigits2_upper; lia).
    simpl Zdigits2 in *.
    destruct (Z_le_gt_dec f 0) as [Hf|Hf].
    - destruct (shl_align_value p 0 f Hf) as [Ev Ee].
      destruct (shl_align p 0 f) as [mz ez]. cbn [fst snd] in Ev, Ee. subst ez.
      assert (Hp : 0 < 2 ^ (0 - f)) by (apply Z.pow_pos_nonneg; lia).
      apply (binary_round_aux_finite _ _ _ _ (Zpos (digits2_pos p) + (0 - f)));
        try lia.
      + rewrite Ev, Z.pow_add_r by lia. nia.
      + unfold f, fexp, SpecFloat.emin, prec, emax in *. lia.
    - assert (Es : shl_align p 0 f = (p, 0)).
      { unfold shl_align. destruct (f - 0) eqn:E; try lia; reflexivity. }
      rewrite Es.
      apply (binary_round_aux_finite _ _ _ _ (Zpos (digits2_pos p)));
        try lia.
      unfold prec, emax. lia. }
  destruct (Numpy.float64_of_int z) as [s|s| |s m e]; try discriminate.
  - exfalso. apply (Hfin s). reflexivity.
  - destruct s; [discriminate|]. eauto.
Qed.

Local Open Scope float_scope.

Lemma float64_add_small a b :
  (0 <= a)%Z -> (0 <= b)%Z -> (a + b < 2 ^ 53)%Z ->
  Numpy.float64 a + Numpy.float64 b = Numpy.float64 (a + b).
Proof.
  intros Ha Hb Hab. apply Prim2SF_inj.
  rewrite add_spec, !float64_Prim2SF by lia.
  apply SFadd_small; assumption.
Qed.

(** A finite number minus itself is [0.0]. *)
Lemma sub_diag_finite x s m e :
  Prim2SF x = S754_finite s m e -> x - x = 0.
Proof.
  intros Hx. apply Prim2SF_inj. rewrite sub_spec, Hx, Prim2SF_zero.
  unfold SF64sub, SFsub. rewrite Z.sub_diag. reflexivity.
Qed.

(** Zero divided by a finite number that is not zero is zero. *)
Lemma zero_div_finite x m e :
  Prim2SF x = S754_finite false m e -> 0 / x = 0.
Proof.
  intros Hx. apply Prim2SF_inj. rewrite div_spec, Hx, Prim2SF_zero. reflexivity.
Qed.

Lemma minimum_same S : Numpy.minimum S S = S.
Proof. unfold Numpy.minimum. destruct (_ || _); reflexivity. Qed.

(** Equal sums pass the check, whatever they are. *)
Lemma relative_diff_same S :
  (rtol <? abs (S - S) / Numpy.minimum S S) = false.
Proof.
  rewrite minimum_same, ltb_spec, div_spec, abs_spec, sub_spec.
  change (Prim2SF rtol) with (S754_finite false 4503599627370496 (-78)).
  destruct (Prim2SF S) as [s|s| |s m e].
  - destruct s; reflexivity.
  - destruct s; reflexivity.
  - reflexivity.
  - unfold SF64sub, SFsub. rewrite Z.sub_diag. destruct s; reflexivity.
Qed.

Lemma sums_differ_same o0 o1 e0 e1 :
  o0 + o1 = e0 + e1 -> sums_differ [o0; o1] [e0; e1] = false.
Proof.
  intros E. unfold sums_differ. cbn [Numpy.sum fold_left]. rewrite E.
  apply relative_diff_same.
Qed.

Local Close Scope float_scope.

(** * The significance test on groups of equal length *)

(** The sums of the observed and of the expected counts of two outcome
    sequences of the same length, below [2 ^ 53], are the same float: the
    check of the sums passes. *)
Lemma sums_differ_equal_length test_group control_group :
  binary test_group -> binary control_group ->
  length test_group = length control_group ->
  Z.of_nat (length test_group) < 2 ^ 53 ->
  sums_differ [Numpy.float64 (count 0 test_group);
               Numpy.float64 (count 1 test_group)]
              [Numpy.float64 (count 0 control_group);
               Numpy.float64 (count 1 control_group)] = false.
Proof.
  intros Bt Bc El Hn. apply sums_differ_same.
  pose proof (binary_counts _ Bt) as Ct. pose proof (binary_counts _ Bc) as Cc.
  pose proof (count_nonneg 0 test_group). pose proof (count_nonneg 1 test_group).
  pose proof (count_nonneg 0 control_group).
  pose proof (count_nonneg 1 control_group).
  rewrite !float64_add_small by lia.
  rewrite Ct, Cc, El. reflexivity.
Qed.

Lemma significance_test_equal_length chdtrc test_group control_group :
  binary test_group -> binary control_group ->
  length test_group = length control_group ->
  Z.of_nat (length test_group) < 2 ^ 53 ->
  let o0 := Numpy.float64 (count 0 test_group) in
  let o1 := Numpy.float64 (count 1 test_group) in
  let e0 := Numpy.float64 (count 0 control_group) in
  let e1 := Numpy.float64 (count 1 control_group) in
  let statistic :=
    (Numpy.square (o0 - e0) / e0 + Numpy.square (o1 - e1) / e1)%float in
  significance_test chdtrc test_group control_group
  = Ok (statistic, Scipy.chi2_sf chdtrc statistic 1).
Proof.
  intros Bt Bc El Hn. rewrite significance_test_cases. cbv zeta.
  rewrite sums_differ_equal_length by assumption. reflexivity.
Qed.

(** C6 (as amended): for two outcome sequences of the same length the
    significance test returns the statistic
    [sum_i (fObs_i - fExp_i)^2 / fExp_i] over the two categories, [fObs]
    and [fExp] being the numbers of zeros and of ones of the observed and
    of the expected group, paired with the p-value [chi2.sf] of it at 1
    degree of freedom.  The numbers are taken as float64; a sequence has
    fewer than [2 ^ 53] outcomes. *)
Theorem significance_test_statistic
    (chdtrc : Z -> float -> float) (test_group control_group : list Z) :
  binary test_group -> binary control_group ->
  length test_group = length control_group ->
  Z.of_nat (length test_group) < 2 ^ 53 ->
  let ones g := int_sum g in
  let zeros g := Z.of_nat (length g) - int_sum g in
  let term f_obs f_exp :=
    ((Numpy.float64 f_obs - Numpy.float64 f_exp)
     * (Numpy.float64 f_obs - Numpy.float64 f_exp)
     / Numpy.float64 f_exp)%float in
  let statistic :=
    (term (zeros test_group) (zeros control_group)
     + term (ones test_group) (ones control_group))%float in
  significance_test chdtrc test_group control_group
  = Ok (statistic, Scipy.chi2_sf chdtrc statistic 1).
Proof.
  intros Bt Bc El Hn ones zeros term statistic.
  rewrite significance_test_equal_length by assumption. cbv zeta.
  subst statistic term ones zeros. cbv beta.
  pose proof (binary_counts _ Bt) as Ct. pose proof (binary_counts _ Bc) as Cc.
  rewrite !(binary_int_sum _ Bt), !(binary_int_sum _ Bc).
  replace (Z.of_nat (length test_group) - count 1 test_group)
    with (count 0 test_group) by lia.
  replace (Z.of_nat (length control_group) - count 1 control_group)
    with (count 0 control_group) by lia.
  reflexivity.
Qed.

Lemma significance_test_statistic_witness :
  significance_test chdtrc_table (outcomes 4711 289) (outcomes 4788 212)
  = Ok (29.205285225642722%float, 6.510138201463369e-08%float).
Proof.
  pose proof (significance_test_statistic chdtrc_table
                (outcomes 4711 289) (outcomes 4788 212)
                (binary_outcomes _ _) (binary_outcomes _ _)) as H.
  assert (El : length (outcomes 4711 289) = length (outcomes 4788 212))
    by (vm_compute; reflexivity).
  assert (Hn : Z.of_nat (length (outcomes 4711 289)) < 2 ^ 53)
    by (vm_compute; reflexivity).
  specialize (H El Hn). vm_compute in H. exact H.
Defined.

(** C6, as stated, fails: for an observed group of 3 outcomes and an
    expected one of 4, both expected counts being 2, [st.chisquare] raises
    ValueError, the sums 3 and 4 of the frequencies not agreeing. *)
Lemma significance_test_unequal_lengths :
  count 0 [0; 0; 1; 1] <> 0 /\ count 1 [0; 0; 1; 1] <> 0
  /\ significance_test chdtrc_table [0; 1; 1] [0; 0; 1; 1] = Raise ValueError.
Proof.
  split; [|split]; try (vm_compute; discriminate). vm_compute. reflexivity.
Qed.

(** C8: a sequence with at least one zero and at least one one, tested
    against itself, gives the statistic 0 and the p-value 1.  The sequence
    is one that Python can hold. *)
Theorem self_test (chdtrc : Z -> float -> float) (group : list Z) :
  Z.of_nat (length group) <= PyInt.sys_maxsize ->
  count 0 group <> 0 -> count 1 group <> 0 ->
  significance_test chdtrc group group = Ok (0%float, 1%float).
Proof.
  intros Hlen H0 H1.
  rewrite significance_test_cases. cbv zeta.
  rewrite sums_differ_same by reflexivity.
  assert (Hfin : forall i, count i group <> 0 ->
            (Numpy.square (Numpy.float64 (count i group)
                           - Numpy.float64 (count i group))
             / Numpy.float64 (count i group) = 0)%float).
  { intros i Hi.
    pose proof (count_nonneg i group). pose proof (count_le_length i group).
    assert (Hb : 0 < count i group < 2 ^ 1023).
    { split; [lia|]. apply Z.le_lt_trans with PyInt.sys_maxsize; [lia|].
      unfold PyInt.sys_maxsize.
      apply Z.lt_trans with (2 ^ 63); [lia|apply Z.pow_lt_mono_r; lia]. }
    destruct (float64_of_int_finite _ Hb) as (m & e & Hf).
    rewrite <- float64_Prim2SF in Hf by lia.
    rewrite (sub_diag_finite _ _ _ _ Hf).
    change (Numpy.square 0) with 0%float.
    apply (zero_div_finite _ _ _ Hf). }
  rewrite (Hfin 0 H0), (Hfin 1 H1). reflexivity.
Qed.

Lemma self_test_witness :
  significance_test chdtrc_table [0; 1; 1; 0; 0] [0; 1; 1; 0; 0]
  = Ok (0%float, 1%float).
Proof.
  apply (self_test chdtrc_table [0; 1; 1; 0; 0]); vm_compute; discriminate.
Defined.

(** * A zero expected count *)

Lemma not_finite_sum x y :
  is_finite x = false \/ is_finite y = false -> is_finite (x + y)%float = false.
Proof.
  intros H. destruct (is_finite (x + y)%float) eqn:E; [|reflexivity].
  apply add_finite in E. destruct E as [Ex Ey], H as [H|H]; congruence.
Qed.

(** C7 (as amended): whenever an expected-category count is zero the power
    estimate fails and yields no result, with ZeroDivisionError for any two
    sequences that Python can hold; the significance test on two outcome
    sequences of the same length does not fail there: it returns a
    statistic that is infinite or NaN, with the p-value [chi2.sf] gives for
    it. *)
Theorem zero_expected_count
    (chdtrc chdtr : Z -> float -> float) (test_group control_group : list Z) :
  count 0 control_group = 0 \/ count 1 control_group = 0 ->
  raises (power_estimate chdtr test_group control_group)
  /\ (Z.of_nat (length test_group) <= PyInt.sys_maxsize ->
      Z.of_nat (length control_group) <= PyInt.sys_maxsize ->
      power_estimate chdtr test_group control_group = Raise ZeroDivisionError)
  /\ (binary test_group -> binary control_group ->
      length test_group = length control_group ->
      Z.of_nat (length test_group) < 2 ^ 53 ->
      exists statistic,
        significance_test chdtrc test_group control_group
        = Ok (statistic, Scipy.chi2_sf chdtrc statistic 1)
        /\ is_finite statistic = false).
Proof.
  intros Hz. unfold power_estimate. rewrite power_lambda_cases.
  split; [|split].
  - (* some division fails *)
    destruct (Z.eq_dec (count 0 control_group) 0) as [E0|N0].
    + rewrite E0, PyInt_truediv_zero. eexists; reflexivity.
    + destruct Hz as [E0|E1]; [contradiction|].
      destruct (PyInt.truediv _ (count 0 control_group)) as [r0|e];
        [|eexists; reflexivity].
      rewrite E1, PyInt_truediv_zero. eexists; reflexivity.
  - (* and it is the division by zero *)
    intros Lt Lc.
    destruct (Z.eq_dec (count 0 control_group) 0) as [E0|N0].
    + rewrite E0, PyInt_truediv_zero. reflexivity.
    + destruct Hz as [E0|E1]; [contradiction|].
      rewrite count_truediv_ok by assumption.
      rewrite E1, PyInt_truediv_zero. reflexivity.
  - (* NumPy divides by zero without raising *)
    intros Bt Bc El Hn. eexists.
    split; [apply significance_test_equal_length; assumption|].
    cbv zeta. apply not_finite_sum.
    destruct Hz as [E|E]; rewrite E; [left|right];
      change (Numpy.float64 0) with 0%float;
      apply div_zero_not_finite; left; reflexivity.
Qed.

Lemma zero_expected_count_witness :
  power_estimate chdtr_table [0; 1] [0; 0] = Raise ZeroDivisionError
  /\ raises (power_estimate chdtr_table [0; 1] [1; 1])
  /\ exists statistic,
       significance_test chdtrc_table [0; 1] [0; 0]
       = Ok (statistic, Scipy.chi2_sf chdtrc_table statistic 1)
       /\ is_finite statistic = false.
Proof.
  pose proof (zero_expected_count chdtrc_table chdtr_table
                [0; 1] [0; 0] (or_intror eq_refl)) as (_ & Hp & Hs).
  split; [|split].
  - apply Hp; vm_compute; discriminate.
  - exact (proj1 (zero_expected_count chdtrc_table chdtr_table
                    [0; 1] [1; 1] (or_introl eq_refl))).
  - apply Hs.
    + repeat (constructor; [first [left; reflexivity|right; reflexivity]|]).
      constructor.
    + repeat (constructor; [first [left; reflexivity|right; reflexivity]|]).
      constructor.
    + reflexivity.
    + vm_compute. reflexivity.
Defined.

(** C7, as stated, fails for the significance test: with no 1 among the
    expected outcomes the test returns a result, the statistic [inf] and the
    p-value 0, where the claim has it fail. *)
Lemma significance_test_zero_expected :
  count 1 [0; 0] = 0
  /\ significance_test chdtrc_table [0; 1] [0; 0] = Ok (infinity, 0%float).
Proof. split; reflexivity. Qed.
